(** * View-state engine of the React data table

    A shallow embedding of the [DataTable] component and of the
    [AdvancedFilter] panel, followed by the properties of the grid
    view-state engine that are checked against it. The component exists in
    several variants that share their handlers; the embedding follows the
    one with row selection, row numbering, forced pinning on both sides and
    auto-fit resizing, and notes where another variant differs.

    Conventions of the embedding:
    - a JavaScript value is a term of [Js.value]; numbers are the
      integer-valued ones ([Z]), strings are sequences of code units below
      256 (one [ascii] per code unit);
    - a plain object used as a record of row fields or as a
      [Record<string, boolean>] is a [gmap]; an object whose key order is
      observable through [Object.entries] is an association list kept in
      the order in which JavaScript lists the keys;
    - the React state of the component is one record, [TableState], and every
      handler is a function from state to state. *)

From stdpp Require Import gmap strings list fin_maps pretty.

Open Scope Z_scope.

(** ** JavaScript values *)

Module Js.

Inductive value : Type :=
| Undefined
| Null
| Bool (b : bool)
| Num (n : Z)
| Str (s : string).

#[global] Instance value_eq_dec : EqDecision value.
Proof. solve_decision. Defined.

(** [ToBoolean]: what [v && ...], [v || ...] and [filter] callbacks test. *)
Definition truthy (v : value) : bool :=
  match v with
  | Undefined | Null => false
  | Bool b => b
  | Num n => negb (n =? 0)
  | Str s => negb (String.eqb s "")
  end.

(** [v.toString()] on a value that has the method. *)
Definition toString (v : value) : option string :=
  match v with
  | Undefined | Null => None
  | Bool true => Some "true"%string
  | Bool false => Some "false"%string
  | Num n => Some (pretty n)
  | Str s => Some s
  end.

(** [obj.key] on a plain object: a missing key reads as [undefined]. *)
Definition prop (obj : gmap string value) (key : string) : value :=
  default Undefined (obj !! key).

(** [a || b] where [a] is a string or [undefined]. *)
Definition or_string (a : option string) (b : string) : string :=
  match a with
  | Some s => if String.eqb s "" then b else s
  | None => b
  end.

(** [a || b] on numbers: zero is falsy. *)
Definition or_number (a : option Z) (b : Z) : Z :=
  match a with
  | Some n => if n =? 0 then b else n
  | None => b
  end.

(** White space and line terminators among the code units below 256. *)
Definition is_white_space (a : Ascii.ascii) : bool :=
  match Ascii.N_of_ascii a with
  | 9 | 10 | 11 | 12 | 13 | 32 | 160 => true
  | _ => false
  end%N.

Fixpoint trimStart (s : string) : string :=
  match s with
  | EmptyString => EmptyString
  | String a rest => if is_white_space a then trimStart rest else s
  end.

Definition trimEnd (s : string) : string :=
  String.rev (trimStart (String.rev s)).

Definition trim (s : string) : string := trimEnd (trimStart s).

(** A string without any character other than white space. *)
Fixpoint blank (s : string) : bool :=
  match s with
  | EmptyString => true
  | String a rest => is_white_space a && blank rest
  end.

(** [arr.findIndex(p)]: the first position satisfying [p], or [-1]. *)
Fixpoint findIndex {A : Type} (p : A → bool) (l : list A) : Z :=
  match l with
  | [] => -1
  | x :: rest =>
      if p x then 0
      else let i := findIndex p rest in if i <? 0 then -1 else i + 1
  end.

(** [arr.includes(x)] on an array of strings. *)
Definition includes (l : list string) (x : string) : bool :=
  bool_decide (x ∈ l).

End Js.

(** ** Numbers that may be NaN *)

(** A JavaScript number as the width computations meet it: an integer, or
    [NaN]. *)
Module Number.

Inductive t : Type :=
| Int (z : Z)
| NaN.

#[global] Instance eq_dec : EqDecision t.
Proof. solve_decision. Defined.

(** [Math.max(a, b)] and [Math.min(a, b)]: [NaN] as soon as an argument is
    [NaN]. *)
Definition max (a b : t) : t :=
  match a, b with
  | Int x, Int y => Int (Z.max x y)
  | _, _ => NaN
  end.

Definition min (a b : t) : t :=
  match a, b with
  | Int x, Int y => Int (Z.min x y)
  | _, _ => NaN
  end.

End Number.

(** ** Rows *)

(** A row record of the dataset: an object read by field name. *)
Abbreviation TData := (gmap string Js.value).

(** [getRowId] option handed to [useReactTable]:
    [(row as any).id?.toString() || index.toString()]. *)
Definition getRowId (row : TData) (index : nat) : string :=
  Js.or_string
    (match Js.prop row "id" with
     | Js.Undefined | Js.Null => None
     | v => Js.toString v
     end)
    (pretty index).

(** ** Component state *)

(** One entry of [ColumnFiltersState]. *)
Record ColumnFilter : Type := {
  filter_id : string;
  filter_value : Js.value;
}.

(** One entry of [SortingState]. *)
Record ColumnSort : Type := {
  sort_id : string;
  sort_desc : bool;
}.

(** [ColumnPinningState]: both sides are optional arrays of column ids. *)
Record ColumnPinningState : Type := {
  pin_left : option (list string);
  pin_right : option (list string);
}.

(** The [useState] cells of [DataTable], in declaration order. *)
Record TableState : Type := {
  sorting : list ColumnSort;
  columnFilters : list ColumnFilter;
  columnVisibility : gmap string bool;
  columnPinning : ColumnPinningState;
  rowSelection : gmap string bool;
  globalFilter : string;
  filterValues : list (string * Js.value);
  columnSizing : gmap string Number.t;
}.

(** The initial values given to [useState]. *)
Definition initialState : TableState := {|
  sorting := [];
  columnFilters := [];
  columnVisibility := ∅;
  columnPinning := {| pin_left := None; pin_right := None |};
  rowSelection := ∅;
  globalFilter := "";
  filterValues := [];
  columnSizing := ∅;
|}.

(** The state setters returned by [useState]. *)
Definition setSorting (v : list ColumnSort) (st : TableState) : TableState :=
  {| sorting := v; columnFilters := columnFilters st;
     columnVisibility := columnVisibility st; columnPinning := columnPinning st;
     rowSelection := rowSelection st; globalFilter := globalFilter st;
     filterValues := filterValues st; columnSizing := columnSizing st |}.

Definition setColumnFilters (v : list ColumnFilter) (st : TableState) : TableState :=
  {| sorting := sorting st; columnFilters := v;
     columnVisibility := columnVisibility st; columnPinning := columnPinning st;
     rowSelection := rowSelection st; globalFilter := globalFilter st;
     filterValues := filterValues st; columnSizing := columnSizing st |}.

Definition setColumnVisibility (v : gmap string bool) (st : TableState) : TableState :=
  {| sorting := sorting st; columnFilters := columnFilters st;
     columnVisibility := v; columnPinning := columnPinning st;
     rowSelection := rowSelection st; globalFilter := globalFilter st;
     filterValues := filterValues st; columnSizing := columnSizing st |}.

Definition setColumnPinning (v : ColumnPinningState) (st : TableState) : TableState :=
  {| sorting := sorting st; columnFilters := columnFilters st;
     columnVisibility := columnVisibility st; columnPinning := v;
     rowSelection := rowSelection st; globalFilter := globalFilter st;
     filterValues := filterValues st; columnSizing := columnSizing st |}.

Definition setRowSelection (v : gmap string bool) (st : TableState) : TableState :=
  {| sorting := sorting st; columnFilters := columnFilters st;
     columnVisibility := columnVisibility st; columnPinning := columnPinning st;
     rowSelection := v; globalFilter := globalFilter st;
     filterValues := filterValues st; columnSizing := columnSizing st |}.

Definition setGlobalFilter (v : string) (st : TableState) : TableState :=
  {| sorting := sorting st; columnFilters := columnFilters st;
     columnVisibility := columnVisibility st; columnPinning := columnPinning st;
     rowSelection := rowSelection st; globalFilter := v;
     filterValues := filterValues st; columnSizing := columnSizing st |}.

Definition setFilterValues (v : list (string * Js.value)) (st : TableState) : TableState :=
  {| sorting := sorting st; columnFilters := columnFilters st;
     columnVisibility := columnVisibility st; columnPinning := columnPinning st;
     rowSelection := rowSelection st; globalFilter := globalFilter st;
     filterValues := v; columnSizing := columnSizing st |}.

Definition setColumnSizing (v : gmap string Number.t) (st : TableState) : TableState :=
  {| sorting := sorting st; columnFilters := columnFilters st;
     columnVisibility := columnVisibility st; columnPinning := columnPinning st;
     rowSelection := rowSelection st; globalFilter := globalFilter st;
     filterValues := filterValues st; columnSizing := v |}.

(** ** Filter panel handlers *)

(** JavaScript lists the keys of an object in two groups: first the keys
    that are array indices, in ascending numeric order, then all other
    keys in the order in which they were added. A key is an array index
    when it is the decimal text of an integer from 0 to 2^32 - 2, written
    without sign and without leading zero. *)
Definition digitValue (a : Ascii.ascii) : option N :=
  let n := Ascii.N_of_ascii a in
  if ((48 <=? n) && (n <=? 57))%N then Some (n - 48)%N else None.

Fixpoint parseDigits (s : string) (acc : N) : option N :=
  match s with
  | EmptyString => Some acc
  | String a rest =>
      match digitValue a with
      | Some d => parseDigits rest (10 * acc + d)%N
      | None => None
      end
  end.

Definition arrayIndex (key : string) : option N :=
  match parseDigits key 0 with
  | Some n =>
      if bool_decide (pretty n = key) && (n <? 4294967295)%N then Some n else None
  | None => None
  end.

(** Whether a key that is added to an object is listed before a key that
    the object has: an array index before a larger array index and before
    every key that is not an array index. *)
Definition listedBefore (key k : string) : bool :=
  match arrayIndex key, arrayIndex k with
  | Some n, Some j => (n <? j)%N
  | Some _, None => true
  | None, _ => false
  end.

(** The entries of an object after a key it has is assigned to: the key
    keeps its place. *)
Fixpoint object_replace (key : string) (v : Js.value) (obj : list (string * Js.value))
  : list (string * Js.value) :=
  match obj with
  | [] => []
  | (k, w) :: rest =>
      if String.eqb k key then (k, v) :: rest else (k, w) :: object_replace key v rest
  end.

(** The entries of an object after a key it does not have is added: the
    key goes in front of the first key it is listed before, and last when
    there is none. *)
Fixpoint object_insert (key : string) (v : Js.value) (obj : list (string * Js.value))
  : list (string * Js.value) :=
  match obj with
  | [] => [(key, v)]
  | (k, w) :: rest =>
      if listedBefore key k then (key, v) :: obj
      else (k, w) :: object_insert key v rest
  end.

(** [{...prev, [key]: value}], as [Object.entries] lists it. *)
Definition object_set (key : string) (v : Js.value) (obj : list (string * Js.value))
  : list (string * Js.value) :=
  if bool_decide (key ∈ obj.*1) then object_replace key v obj
  else object_insert key v obj.

(** The key order of an object that JavaScript can list: no key comes
    after a key it is listed before. *)
Fixpoint keysOrdered (keys : list string) : bool :=
  match keys with
  | [] => true
  | k :: rest => forallb (λ later, negb (listedBefore later k)) rest && keysOrdered rest
  end.

(** The callback of [.filter] in [handleApplyFilters]:
    [value && value.toString().trim() !== ''], read as a boolean. *)
Definition filterEntryActive (value : Js.value) : bool :=
  Js.truthy value &&
  match Js.toString value with
  | Some s => negb (String.eqb (Js.trim s) "")
  | None => false
  end.

(** The [filters] constant of [handleApplyFilters]: the entries of
    [filterValues] that pass the test, as [{id, value}] objects. It is also
    the argument handed to [onFilterApply]. *)
Definition appliedFilters (values : list (string * Js.value)) : list ColumnFilter :=
  List.map (λ e, {| filter_id := e.1; filter_value := e.2 |})
    (List.filter (λ e, filterEntryActive e.2) values).

Definition handleApplyFilters (st : TableState) : TableState :=
  setColumnFilters (appliedFilters (filterValues st)) st.

Definition handleClearFilters (st : TableState) : TableState :=
  setGlobalFilter "" (setColumnFilters [] (setFilterValues [] st)).

Definition handleFilterChange (filterId : string) (value : Js.value)
    (st : TableState) : TableState :=
  setFilterValues (object_set filterId value (filterValues st)) st.

(** ** The advanced filter panel *)

Module AdvancedFilter.

(** A [DateRange] of the day picker; a [Date] is its time value. *)
Record DateRange : Type := {
  range_from : option Z;
  range_to : option Z;
}.

(** [FilterValue]: every payload field is optional. *)
Record FilterValue : Type := {
  text : option string;
  number : option Z;
  select : option string;
  multiselect : option (list string);
  date : option Z;
  daterange : option DateRange;
}.

(** Truthiness of an optional string: [undefined] and [''] are falsy. *)
Definition string_truthy (s : option string) : bool :=
  match s with
  | Some s => negb (String.eqb s "")
  | None => false
  end.

(** The callback shared by [hasActiveFilters] and the active-filter
    counter, applied to [localValues[key]]. *)
Definition isActive (value : option FilterValue) : bool :=
  match value with
  | None => false
  | Some v =>
      string_truthy (text v)
      || bool_decide (number v ≠ None)
      || string_truthy (select v)
      || match multiselect v with
         | Some l => bool_decide (0 < length l)%nat
         | None => false
         end
      || bool_decide (date v ≠ None)
      || match daterange v with
         | Some r => bool_decide (range_from r ≠ None) || bool_decide (range_to r ≠ None)
         | None => false
         end
  end.

(** [Object.keys(localValues)]. *)
Definition keys (localValues : gmap string FilterValue) : list string :=
  (map_to_list localValues).*1.

Definition hasActiveFilters (localValues : gmap string FilterValue) : bool :=
  existsb (λ key, isActive (localValues !! key)) (keys localValues).

Definition activeFilterCount (localValues : gmap string FilterValue) : nat :=
  length (List.filter (λ key, isActive (localValues !! key)) (keys localValues)).

Definition onChange (configId : string) (newValue : FilterValue)
    (localValues : gmap string FilterValue) : gmap string FilterValue :=
  <[configId := newValue]> localValues.

End AdvancedFilter.

(** ** Columns *)

(** The fields of a [ColumnDef] that the component reads or sets. A header
    given as a render function reads as [None]. *)
Record ColumnDef : Type := {
  col_id : string;
  header : option string;
  enableSorting : option bool;
  enableHiding : option bool;
  enableResizing : option bool;
  enablePinning : option bool;
  enableColumnFilter : option bool;
  defSize : option Z;
  minSize : option Z;
  maxSize : option Z;
}.

(** An entry of the [rowActions] prop; only the number of entries is read
    outside the rendering of the menu. *)
Record RowAction : Type := {
  action_label : string;
}.

(** The props of [DataTable] that the view state depends on. *)
Record DataTableProps : Type := {
  data : list TData;
  columns : list ColumnDef;
  selectable : bool;
  rowActions : option (list RowAction);
}.

(** [rowActions && rowActions.length > 0]. *)
Definition hasRowActions (props : DataTableProps) : bool :=
  match rowActions props with
  | Some (_ :: _) => true
  | _ => false
  end.

(** The synthetic columns. (An earlier variant gives the selection column
    a width of 40 and the row-number column the header ["#"].) *)
Definition selectionColumn : ColumnDef := {|
  col_id := "select"; header := None;
  enableSorting := Some false; enableHiding := Some false;
  enableResizing := Some false; enablePinning := Some false;
  enableColumnFilter := None;
  defSize := Some 44; minSize := Some 44; maxSize := Some 44;
|}.

Definition rowNumberColumn : ColumnDef := {|
  col_id := "rowNumber"; header := Some "No."%string;
  enableSorting := Some false; enableHiding := Some false;
  enableResizing := Some false; enablePinning := Some false;
  enableColumnFilter := Some false;
  defSize := Some 50; minSize := Some 50; maxSize := Some 50;
|}.

Definition rowActionsColumn : ColumnDef := {|
  col_id := "rowActions"; header := Some ""%string;
  enableSorting := Some false; enableHiding := Some false;
  enableResizing := Some false; enablePinning := Some true;
  enableColumnFilter := Some false;
  defSize := Some 32; minSize := Some 32; maxSize := Some 32;
|}.

(** The ids of the synthetic columns. *)
Definition reservedIds : list string := ["select"; "rowNumber"; "rowActions"]%string.

(** [tableColumns]: the synthetic columns, then the caller's columns. *)
Definition tableColumns (props : DataTableProps) : list ColumnDef :=
  let extraColumns :=
    (if selectable props then [selectionColumn] else [])
    ++ [rowNumberColumn]
    ++ (if hasRowActions props then [rowActionsColumn] else []) in
  extraColumns ++ columns props.

(** The [columnPinning] entry of the [state] option: the user's pinning
    with the forced columns put in front on each side. *)
Definition leftPinnedColumns (props : DataTableProps) : list string :=
  if selectable props then ["select"; "rowNumber"]%string else ["rowNumber"%string].

Definition rightPinnedColumns (props : DataTableProps) : list string :=
  if hasRowActions props then ["rowActions"%string] else [].

Definition effectiveColumnPinning (props : DataTableProps)
    (columnPinning : ColumnPinningState) : ColumnPinningState := {|
  pin_left := Some (
    leftPinnedColumns props ++
    List.filter (λ id, negb (Js.includes (leftPinnedColumns props) id))
      (default [] (pin_left columnPinning)));
  pin_right := Some (
    rightPinnedColumns props ++
    List.filter (λ id, negb (Js.includes (rightPinnedColumns props) id))
      (default [] (pin_right columnPinning)));
|}.

(** ** Auto-fit of a column width *)

(** The pixel constants of the double-click handler. The two variants of
    the component differ only in these. *)
Record AutoFitMetrics : Type := {
  baseWidth : Z;
  charWidth : Z;
  headerPadding : Z;
  cellPadding : Z;
  defaultMinSize : Z;
  defaultMaxSize : Z;
}.

Definition compactMetrics : AutoFitMetrics := {|
  baseWidth := 40; charWidth := 6; headerPadding := 40; cellPadding := 20;
  defaultMinSize := 40; defaultMaxSize := 600;
|}.

Definition wideMetrics : AutoFitMetrics := {|
  baseWidth := 50; charWidth := 8; headerPadding := 60; cellPadding := 32;
  defaultMinSize := 50; defaultMaxSize := 800;
|}.

(** What the variable [cellText] holds when its [length] is read: a text,
    or a value that is not a text and has no [length]. *)
Inductive CellText : Type :=
| Text (s : string)
| NoText (cellValue : Js.value).

(** The body of the [rows.forEach] callback up to [cellText.length]: the
    text taken from a cell value, then the three columns that are treated
    by id. For the column ["status"] the variable receives the cell value
    itself when that is truthy, whatever its type. The date of the column
    ["joinDate"] is printed by the runtime for its locale:
    [toLocaleDateString] stands for [v => new Date(v).toLocaleDateString()].
    (Objects and arrays, which the callback prints with [JSON.stringify],
    are not among the cell values of the embedding.) *)
Definition cellText (toLocaleDateString : Js.value → string) (columnId : string)
    (cellValue : Js.value) : CellText :=
  let cellText :=
    match cellValue with
    | Js.Str s => s
    | Js.Num n => pretty n
    | _ => ""%string
    end in
  if String.eqb columnId "status" then
    if Js.truthy cellValue
    then match cellValue with
         | Js.Str s => Text s
         | _ => NoText cellValue
         end
    else Text ""
  else if String.eqb columnId "joinDate" then Text (toLocaleDateString cellValue)
  else if String.eqb columnId "rowNumber" then Text "999"
  else Text cellText.

(** [cellText.length * 6 + 20]: the [length] of a value that is not a text
    is [undefined], and the arithmetic on it gives [NaN]. *)
Definition contentWidth (m : AutoFitMetrics) (text : CellText) : Number.t :=
  match text with
  | Text s => Number.Int (Z.of_nat (String.length s) * charWidth m + cellPadding m)
  | NoText _ => Number.NaN
  end.

(** [maxWidth] after the header and every cell have been measured.
    [cellValues] are the values of the column's cells over the filtered
    rows, as [cell.getValue()] gives them. *)
Definition maxWidth (m : AutoFitMetrics) (toLocaleDateString : Js.value → string)
    (column : ColumnDef) (cellValues : list Js.value) : Number.t :=
  let headerText := default (col_id column) (header column) in
  fold_left
    (λ width cellValue,
       Number.max width
         (contentWidth m (cellText toLocaleDateString (col_id column) cellValue)))
    cellValues
    (Number.max (Number.Int (baseWidth m))
       (Number.Int (Z.of_nat (String.length headerText) * charWidth m
                    + headerPadding m))).

(** [finalWidth] for an integer [maxWidth]:
    [Math.min(Math.max(maxWidth, minSize), maxSize)] with
    [minSize = column.columnDef.minSize || 40] and likewise for [maxSize]. *)
Definition finalWidth (m : AutoFitMetrics) (column : ColumnDef) (maxWidth : Z) : Z :=
  let minSize := Js.or_number (minSize column) (defaultMinSize m) in
  let maxSize := Js.or_number (maxSize column) (defaultMaxSize m) in
  Z.min (Z.max maxWidth minSize) maxSize.

(** The same line on the number that the loop has produced, which may be
    [NaN]. *)
Definition storedWidth (m : AutoFitMetrics) (column : ColumnDef)
    (maxWidth : Number.t) : Number.t :=
  let minSize := Js.or_number (minSize column) (defaultMinSize m) in
  let maxSize := Js.or_number (maxSize column) (defaultMaxSize m) in
  Number.min (Number.max maxWidth (Number.Int minSize)) (Number.Int maxSize).

(** The whole handler: the measured width, clamped, stored under the
    column's id. *)
Definition autoFitColumn (m : AutoFitMetrics) (toLocaleDateString : Js.value → string)
    (column : ColumnDef) (cellValues : list Js.value) (st : TableState) : TableState :=
  setColumnSizing
    (<[col_id column
       := storedWidth m column (maxWidth m toLocaleDateString column cellValues)]>
       (columnSizing st))
    st.

(** ** The table instance

    The component obtains its row models, its selection operations and its
    column operations from the table instance that [useReactTable] builds.
    That instance is library code and is not among the sources; the
    definitions of this part that stand for it say so. The filter and sort
    functions that the instance resolves for the columns are parameters. *)

(** A row of a row model: [row.id], [row.original], [row.index]. *)
Record Row : Type := {
  row_id : string;
  original : TData;
  row_index : nat;
}.

(** What the instance resolves from the column definitions: whether a row
    passes one column filter, whether it passes the global search term, and
    the comparison of two rows under a sorting state (negative, zero or
    positive, as a JavaScript comparator). *)
Record RowModelFns : Type := {
  columnFilterFn : ColumnFilter → TData → bool;
  globalFilterFn : string → TData → bool;
  sortingFn : list ColumnSort → TData → TData → Z;
}.

(** ['left' | 'right' | false], the argument of [column.pin]. *)
Inductive ColumnPinningPosition : Type :=
| PinLeft
| PinRight
| PinFalse.

Section TableInstance.

Context (props : DataTableProps) (fns : RowModelFns).

(** Modelled from the spec: [getCoreRowModel] of the table instance, absent
    from the sources. One row per record of [data], in data order, its
    identity given by the [getRowId] option ("identity derived from an
    [id] field if present, else from its position in the original
    array"). *)
Definition getCoreRowModel : list Row :=
  imap (λ index original,
          {| row_id := getRowId original index;
             original := original; row_index := index |})
       (data props).

(** Modelled from the spec: the test applied to a row by
    [getFilteredRowModel], absent from the sources. "All active per-column
    filters AND-compose"; "if a non-empty search term is present, the row
    must [match it] ... additional to, via AND, the per-column filters". *)
Definition rowPassesFilters (st : TableState) (row : Row) : bool :=
  forallb (λ f, columnFilterFn fns f (original row)) (columnFilters st)
  && (if String.eqb (globalFilter st) "" then true
      else globalFilterFn fns (globalFilter st) (original row)).

(** Modelled from the spec: [getFilteredRowModel] of the table instance,
    absent from the sources. The rows that pass the filters, in data
    order; it is computed before any sorting ("pipeline order is fixed:
    filter → sort"). *)
Definition getFilteredRowModel (st : TableState) : list Row :=
  List.filter (rowPassesFilters st) getCoreRowModel.

(** Modelled from the spec: the comparator of [getSortedRowModel], absent
    from the sources. Keys apply in sequence inside [sortingFn]; "if all
    keys tie, original relative order is preserved". *)
Definition compareRows (sorting : list ColumnSort) (a b : Row) : Z :=
  let c := sortingFn fns sorting (original a) (original b) in
  if c =? 0 then Z.of_nat (row_index a) - Z.of_nat (row_index b) else c.

(** Modelled from the spec: the stable sort behind [getSortedRowModel],
    absent from the sources, as an insertion sort. *)
Fixpoint insertRow (sorting : list ColumnSort) (r : Row) (l : list Row) : list Row :=
  match l with
  | [] => [r]
  | x :: rest =>
      if compareRows sorting r x <=? 0 then r :: l
      else x :: insertRow sorting r rest
  end.

Definition sortRows (sorting : list ColumnSort) (l : list Row) : list Row :=
  foldr (insertRow sorting) [] l.

(** Modelled from the spec: [getSortedRowModel] of the table instance,
    absent from the sources: the filtered rows, sorted when there is a
    sort key ("sorting only needs to order the surviving rows"). *)
Definition getSortedRowModel (st : TableState) : list Row :=
  match sorting st with
  | [] => getFilteredRowModel st
  | keys => sortRows keys (getFilteredRowModel st)
  end.

(** Modelled from the spec: [getRowModel] of the table instance, absent
    from the sources: the final rendered sequence, "raw rows → filtered
    rows → sorted rows" (no pagination, grouping or expansion is set
    up). *)
Definition getRowModel (st : TableState) : list Row := getSortedRowModel st.

(** Modelled from the spec: [row.getIsSelected] ([isSelected(rowId)]),
    absent from the sources: the row's id is a key of the selection
    state with value [true]. *)
Definition isRowSelected (st : TableState) (row : Row) : bool :=
  bool_decide (rowSelection st !! row_id row = Some true).

(** Modelled from the spec: [getFilteredSelectedRowModel] of the table
    instance, absent from the sources: rows "present in both the
    selection set and the current filtered view". *)
Definition getFilteredSelectedRowModel (st : TableState) : list Row :=
  List.filter (isRowSelected st) (getFilteredRowModel st).

(** Modelled from the spec: [row.toggleSelected(value)] ([toggle(rowId)]),
    absent from the sources. Without a value the current flag is
    inverted; selecting needs [enableRowSelection], which the component
    sets to [selectable]. *)
Definition toggleSelected (row : Row) (value : option bool)
    (st : TableState) : TableState :=
  let isSelected := isRowSelected st row in
  let value := default (negb isSelected) value in
  if selectable props && bool_decide (isSelected = value) then st
  else if value then
    (if selectable props
     then setRowSelection (<[row_id row := true]> (rowSelection st)) st
     else st)
  else setRowSelection (delete (row_id row) (rowSelection st)) st.

(** Marks, or removes the marks of, a list of rows in a selection state. *)
Definition selectRows (rows : list Row) (sel : gmap string bool) : gmap string bool :=
  foldl (λ sel row, if selectable props then <[row_id row := true]> sel else sel)
    sel rows.

Definition deselectRows (rows : list Row) (sel : gmap string bool) : gmap string bool :=
  foldl (λ sel row, delete (row_id row) sel) sel rows.

(** Modelled from the spec: [getIsAllRowsSelected] of the table instance,
    absent from the sources: there are filtered rows, there are selected
    ids, and no selectable filtered row is unselected. *)
Definition getIsAllRowsSelected (st : TableState) : bool :=
  negb (Nat.eqb (length (getFilteredRowModel st)) 0)
  && negb (Nat.eqb (size (rowSelection st)) 0)
  && negb (existsb (λ row, selectable props && negb (isRowSelected st row))
             (getFilteredRowModel st)).

(** Modelled from the spec: [toggleAllRowsSelected] of the table instance
    ([selectAll(currentlyFilteredRowIds)]), absent from the sources.
    "Select all semantics operate over the currently filtered row set
    only, never the full dataset; toggling it off deselects exactly that
    filtered set". Without a value it selects unless all are selected. *)
Definition toggleAllRowsSelected (value : option bool)
    (st : TableState) : TableState :=
  let value := default (negb (getIsAllRowsSelected st)) value in
  if value
  then setRowSelection (selectRows (getFilteredRowModel st) (rowSelection st)) st
  else setRowSelection (deselectRows (getFilteredRowModel st) (rowSelection st)) st.

(** Modelled from the spec: [toggleAllPageRowsSelected] of the table
    instance, absent from the sources: the same over the rendered rows,
    which the header checkbox calls. *)
Definition toggleAllPageRowsSelected (value : bool)
    (st : TableState) : TableState :=
  if value
  then setRowSelection (selectRows (getRowModel st) (rowSelection st)) st
  else setRowSelection (deselectRows (getRowModel st) (rowSelection st)) st.

(** The callback of the [useMemo] cell [selectedRowsData]:
    [table.getFilteredSelectedRowModel().rows.map(row => row.original)],
    as it evaluates in a state. The cell itself is [selectedRowsData]
    below. *)
Definition computeSelectedRowsData (st : TableState) : list TData :=
  List.map original (getFilteredSelectedRowModel st).

(** The [cell] of [rowNumberColumn]: the position of the row's id in
    [table.getFilteredRowModel().rows], plus one. *)
Definition rowNumberCell (st : TableState) (row : Row) : Z :=
  let filteredRows := getFilteredRowModel st in
  let index := Js.findIndex (λ r, String.eqb (row_id r) (row_id row)) filteredRows in
  index + 1.

(** The body of the table renders [table.getRowModel().rows] top to
    bottom; these are the numbers shown in the row-number column. *)
Definition renderedRowNumbers (st : TableState) : list Z :=
  List.map (rowNumberCell st) (getRowModel st).

(** Modelled from the spec: [column.getCanHide], absent from the sources
    ("synthetic columns are never hideable": they set [enableHiding] to
    [false]). *)
Definition getCanHide (column : ColumnDef) : bool :=
  default true (enableHiding column).

(** Modelled from the spec: [column.toggleVisibility(value)]
    ([setVisible(columnId, bool)]), absent from the sources: "no-op for
    non-hideable columns". *)
Definition toggleVisibility (column : ColumnDef) (value : bool)
    (st : TableState) : TableState :=
  if getCanHide column
  then setColumnVisibility (<[col_id column := value]> (columnVisibility st)) st
  else st.

(** Modelled from the spec: [column.pin(position)]
    ([pin(columnId, side | none)]), absent from the sources. The id leaves
    both sides and is appended to the requested one ("user-left-pinned
    columns, in pin-request order"). The update goes through
    [onColumnPinningChange], that is, to the component's own
    [columnPinning] cell. *)
Definition pinColumn (column : ColumnDef) (position : ColumnPinningPosition)
    (st : TableState) : TableState :=
  let old := columnPinning st in
  let others (side : option (list string)) :=
    List.filter (λ d, negb (String.eqb d (col_id column))) (default [] side) in
  setColumnPinning
    match position with
    | PinRight => {| pin_left := Some (others (pin_left old));
                     pin_right := Some (others (pin_right old) ++ [col_id column]) |}
    | PinLeft => {| pin_left := Some (others (pin_left old) ++ [col_id column]);
                    pin_right := Some (others (pin_right old)) |}
    | PinFalse => {| pin_left := Some (others (pin_left old));
                     pin_right := Some (others (pin_right old)) |}
    end st.

(** Modelled from the spec: [table.resetColumnPinning()] ([resetPinning()],
    [unpinAll]), absent from the sources: "bulk reset to defaults". *)
Definition resetColumnPinning (st : TableState) : TableState :=
  setColumnPinning {| pin_left := Some []; pin_right := Some [] |} st.

(** Modelled from the spec: [column.getIsVisible], absent from the
    sources: visible unless the visibility state says [false]. *)
Definition getIsVisible (st : TableState) (column : ColumnDef) : bool :=
  default true (columnVisibility st !! col_id column).

(** The first column of a list that has the given id. *)
Definition findColumn (l : list ColumnDef) (id : string) : option ColumnDef :=
  List.find (λ c, String.eqb (col_id c) id) l.

(** The column pinning that the component hands to the instance. *)
Definition statePinning (st : TableState) : ColumnPinningState :=
  effectiveColumnPinning props (columnPinning st).

(** Modelled from the spec: the visible leaf columns of the instance,
    absent from the sources, in definition order. *)
Definition visibleLeafColumns (st : TableState) : list ColumnDef :=
  List.filter (getIsVisible st) (tableColumns props).

(** Modelled from the spec: [getLeftVisibleLeafColumns], absent from the
    sources: the ids of the left side of the pinning state, in that order,
    each looked up among the visible columns ("forced-left synthetic
    columns, [then] user-left-pinned columns, in pin-request order"). *)
Definition getLeftVisibleLeafColumns (st : TableState) : list ColumnDef :=
  omap (findColumn (visibleLeafColumns st)) (default [] (pin_left (statePinning st))).

(** Modelled from the spec: [getRightVisibleLeafColumns], absent from the
    sources: the same for the right side of the pinning state. *)
Definition getRightVisibleLeafColumns (st : TableState) : list ColumnDef :=
  omap (findColumn (visibleLeafColumns st)) (default [] (pin_right (statePinning st))).

(** Modelled from the spec: [getCenterVisibleLeafColumns], absent from the
    sources: the visible columns pinned to neither side ("unpinned columns,
    in definition order"). *)
Definition getCenterVisibleLeafColumns (st : TableState) : list ColumnDef :=
  List.filter
    (λ c, negb (Js.includes (default [] (pin_left (statePinning st))) (col_id c))
          && negb (Js.includes (default [] (pin_right (statePinning st))) (col_id c)))
    (visibleLeafColumns st).

(** Modelled from the spec: the rendered column order ([effectiveOrder()]),
    absent from the sources: left block, centre block, right block. *)
Definition effectiveOrder (st : TableState) : list string :=
  List.map col_id
    (getLeftVisibleLeafColumns st ++ getCenterVisibleLeafColumns st
     ++ getRightVisibleLeafColumns st).

(** ** Transitions *)

(** The user actions wired to the state by the component. Some controls
    are only rendered for the rows and columns that allow them; the
    actions here carry no such restriction. *)
Inductive Action : Type :=
| ToggleRowSelected (row : Row) (value : option bool)
| ToggleAllRowsSelected
| ToggleAllPageRowsSelected (value : bool)
| ClearSelection
| FilterChange (filterId : string) (value : Js.value)
| ApplyFilters
| ClearFilters
| SearchChange (value : string)
| SortingChange (sorting : list ColumnSort)
| ColumnSizingChange (sizing : gmap string Number.t)
| AutoFit (m : AutoFitMetrics) (toLocaleDateString : Js.value → string)
    (column : ColumnDef) (cellValues : list Js.value)
| PinColumn (column : ColumnDef) (position : ColumnPinningPosition)
| ResetColumnPinning
| ToggleVisibility (column : ColumnDef) (value : bool).

Definition dispatch (st : TableState) (a : Action) : TableState :=
  match a with
  | ToggleRowSelected row value => toggleSelected row value st
  | ToggleAllRowsSelected => toggleAllRowsSelected None st
  | ToggleAllPageRowsSelected value => toggleAllPageRowsSelected value st
  | ClearSelection => setRowSelection ∅ st
  | FilterChange filterId value => handleFilterChange filterId value st
  | ApplyFilters => handleApplyFilters st
  | ClearFilters => handleClearFilters st
  | SearchChange value => setGlobalFilter value st
  | SortingChange sorting => setSorting sorting st
  | ColumnSizingChange sizing => setColumnSizing sizing st
  | AutoFit m toLocaleDateString column cellValues =>
      autoFitColumn m toLocaleDateString column cellValues st
  | PinColumn column position => pinColumn column position st
  | ResetColumnPinning => resetColumnPinning st
  | ToggleVisibility column value => toggleVisibility column value st
  end.

Definition run (st : TableState) (actions : list Action) : TableState :=
  foldl dispatch st actions.

(** The actions of the filter panel and of the search box. *)
Definition isFilterAction (a : Action) : bool :=
  match a with
  | FilterChange _ _ | ApplyFilters | ClearFilters | SearchChange _ => true
  | _ => false
  end.

(** ** The memoised selected rows

    [selectedRowsData] is a [useMemo] cell with the dependency list
    [[rowSelection, table]]. React runs the callback at the first render
    and, after that, only at a render in which a dependency is another
    object than at the render before. The table instance that
    [useReactTable] returns is one object for the life of the component,
    so the callback runs again exactly when an event handler has handed a
    new object to [setRowSelection]; at every other render the cell keeps
    the list it holds. *)

(** Whether the handler of an action hands a new object to
    [setRowSelection]. The toggle of one row returns the old object when
    the row already has the requested state, and the toggles of all rows
    always build a new object (both are methods of the table instance,
    which is library code); the clear button passes a new empty object; no
    other handler calls the setter. *)
Definition setsRowSelection (st : TableState) (a : Action) : bool :=
  match a with
  | ToggleRowSelected row value =>
      negb (selectable props
            && bool_decide (isRowSelected st row
                            = default (negb (isRowSelected st row)) value))
  | ToggleAllRowsSelected | ToggleAllPageRowsSelected _ | ClearSelection => true
  | _ => false
  end.

(** The component between two events: its state cells and the list held
    by the memo cell. *)
Record Component : Type := {
  cells : TableState;
  selectedRowsData : list TData;
}.

(** The first render. *)
Definition mount : Component := {|
  cells := initialState;
  selectedRowsData := computeSelectedRowsData initialState;
|}.

(** One event and the render that follows it. *)
Definition handle (c : Component) (a : Action) : Component := {|
  cells := dispatch (cells c) a;
  selectedRowsData :=
    if setsRowSelection (cells c) a
    then computeSelectedRowsData (dispatch (cells c) a)
    else selectedRowsData c;
|}.

Definition play (actions : list Action) : Component :=
  foldl handle mount actions.

End TableInstance.

(** ** Sample tables

    Small concrete tables on which the definitions are evaluated. *)

Module Sample.

(** A row with a string [id] and a number field [n]. *)
Definition record (id : string) (n : Z) : TData :=
  {[ "id"%string := Js.Str id; "n"%string := Js.Num n ]}.

(** A row without an [id] field. *)
Definition anonymous (n : Z) : TData := {[ "n"%string := Js.Num n ]}.

Definition numberOf (d : TData) : Z :=
  match Js.prop d "n" with
  | Js.Num n => n
  | _ => 0
  end.

(** Column filters compare the field with the filter value; the search
    term is compared with the [id] field; sorting is by the field [n],
    ascending or descending after the first key. *)
Definition fns : RowModelFns := {|
  columnFilterFn := λ f d, bool_decide (Js.prop d (filter_id f) = filter_value f);
  globalFilterFn := λ term d, bool_decide (Js.prop d "id" = Js.Str term);
  sortingFn := λ keys a b,
    match keys with
    | [] => 0
    | key :: _ => if sort_desc key then numberOf b - numberOf a
                  else numberOf a - numberOf b
    end;
|}.

Definition nameColumn : ColumnDef := {|
  col_id := "name"; header := Some "Name"%string;
  enableSorting := None; enableHiding := None; enableResizing := None;
  enablePinning := None; enableColumnFilter := None;
  defSize := Some 120; minSize := Some 100; maxSize := Some 300;
|}.

Definition emailColumn : ColumnDef := {|
  col_id := "email"; header := Some "Email"%string;
  enableSorting := None; enableHiding := None; enableResizing := None;
  enablePinning := None; enableColumnFilter := None;
  defSize := None; minSize := None; maxSize := None;
|}.

(** Two rows, the larger [n] first; selection and row actions enabled. *)
Definition props : DataTableProps := {|
  data := [record "a" 2; record "b" 1];
  columns := [nameColumn; emailColumn];
  selectable := true;
  rowActions := Some [ {| action_label := "Edit" |} ];
|}.

(** A row without [id] at position 0 followed by a row whose [id] is
    ["0"]. *)
Definition clashingProps : DataTableProps := {|
  data := [anonymous 5; record "0" 7];
  columns := [nameColumn];
  selectable := true;
  rowActions := None;
|}.

Definition byNumber : list ColumnSort := [ {| sort_id := "n"; sort_desc := false |} ].

End Sample.

(** ** The filter panel of the table *)

(** The [type] of a [FilterConfig]. *)
Inductive FilterType : Type :=
| TextFilter
| SelectFilter
| DateFilter
| NumberFilter.

(** A [FilterConfig] of the table's own panel. *)
Record FilterConfig : Type := {
  config_id : string;
  config_label : string;
  config_type : FilterType;
}.

(** [filterConfigs]: one text filter for every column that has an id and
    does not switch column filtering off, labelled by the header when that
    is a string and by the id otherwise. ([col.id &&] does not tell a
    missing id from an empty one; both read as the empty id here.) *)
Definition filterConfigs (columns : list ColumnDef) : list FilterConfig :=
  List.map
    (λ col, {| config_id := col_id col;
               config_label := default (col_id col) (header col);
               config_type := TextFilter |})
    (List.filter
       (λ col, negb (String.eqb (col_id col) "")
               && negb (bool_decide (enableColumnFilter col = Some false)))
       columns).

(** [filterable && filterConfigs.length > 0]: whether the panel is offered. *)
Definition showFilterPanel (filterable : bool) (columns : list ColumnDef) : bool :=
  filterable && bool_decide (0 < length (filterConfigs columns))%nat.

(** What an input of the panel can send: a change of the text of one of
    the configured filters. Every other action passes. *)
Definition isPanelEdit (columns : list ColumnDef) (a : Action) : Prop :=
  match a with
  | FilterChange filterId value =>
      filterId ∈ config_id <$> filterConfigs columns ∧ ∃ s, value = Js.Str s
  | _ => True
  end.

(** The panel and the applied filters agree with the configured filters:
    one panel entry per column, each for a configured filter and holding a
    text; one applied filter per column, each for a column of the panel and
    holding a text that is not blank. *)
Definition panelConsistent (columns : list ColumnDef) (st : TableState) : Prop :=
  NoDup (filterValues st).*1 ∧
  (∀ k v, (k, v) ∈ filterValues st →
          k ∈ config_id <$> filterConfigs columns ∧ ∃ s, v = Js.Str s) ∧
  NoDup (filter_id <$> columnFilters st) ∧
  (∀ f, f ∈ columnFilters st →
        filter_id f ∈ (filterValues st).*1
        ∧ ∃ s, filter_value f = Js.Str s ∧ Js.blank s = false).

(** ** The selection indicator *)

(** [Object.keys(rowSelection).filter(key => rowSelection[key]).length]. *)
Definition selectedCount (st : TableState) : nat :=
  length (List.filter (λ key, default false (rowSelection st !! key))
            (map_to_list (rowSelection st)).*1).

(** [selectable && Object.keys(rowSelection).length > 0]: whether the
    count and the clear-selection button are shown. *)
Definition showSelectedCount (props : DataTableProps) (st : TableState) : bool :=
  selectable props && bool_decide (0 < size (rowSelection st))%nat.

(** ** The earlier pinning override *)

(** The [columnPinning] entry of the variant without row actions: only the
    left side is forced, the right side is the user's. *)
Definition leftOnlyColumnPinning (selectable : bool)
    (columnPinning : ColumnPinningState) : ColumnPinningState :=
  if selectable
  then {| pin_left := Some ("select" :: "rowNumber" ::
            List.filter (λ id, negb (String.eqb id "select")
                               && negb (String.eqb id "rowNumber"))
              (default [] (pin_left columnPinning)))%string;
          pin_right := pin_right columnPinning |}
  else {| pin_left := Some ("rowNumber" ::
            List.filter (λ id, negb (String.eqb id "rowNumber"))
              (default [] (pin_left columnPinning)))%string;
          pin_right := pin_right columnPinning |}.

(** ** The multi-select of the advanced panel *)

Module MultiSelect.

(** A [FilterOption]. *)
Record FilterOption : Type := {
  option_value : string;
  option_label : string;
}.

(** [selectedItems]: the options whose value is in the selection. *)
Definition selectedItems (options : list FilterOption) (value : list string)
  : list FilterOption :=
  List.filter (λ option, Js.includes value (option_value option)) options.

(** [handleSelect]: the new selection handed to [onChange]. *)
Definition handleSelect (optionValue : string) (value : list string) : list string :=
  if Js.includes value optionValue
  then List.filter (λ v, negb (String.eqb v optionValue)) value
  else value ++ [optionValue].

(** [selectAll] and [clearAll]: the selections handed to [onChange]. *)
Definition selectAll (options : list FilterOption) : list string :=
  List.map option_value options.

Definition clearAll : list string := [].

(** The text of the trigger button. *)
Definition triggerText (options : list FilterOption) (value : list string)
    (placeholder : string) : string :=
  if bool_decide (0 < length (selectedItems options value))%nat
  then pretty (length (selectedItems options value)) +:+ " selected"
  else placeholder.

(** The [FilterValue] that the panel stores for a multi-select. *)
Definition filterValue (value : list string) : AdvancedFilter.FilterValue :=
  {| AdvancedFilter.text := None; AdvancedFilter.number := None;
     AdvancedFilter.select := None; AdvancedFilter.multiselect := Some value;
     AdvancedFilter.date := None; AdvancedFilter.daterange := None |}.

End MultiSelect.

(** The line under the advanced panel: the number of active filters and a
    plural ending, shown when a filter is active. *)
Definition activeFilterLabel (localValues : gmap string AdvancedFilter.FilterValue)
  : option string :=
  if AdvancedFilter.hasActiveFilters localValues
  then Some (pretty (AdvancedFilter.activeFilterCount localValues)
             +:+ " active filter"
             +:+ (if bool_decide (length (AdvancedFilter.keys localValues) ≠ 1%nat)
                  then "s" else ""))
  else None.

(** ** The context menu of a row *)

Module ContextMenu.

(** A [ContextMenuItem]; [onClick] and [icon] are left to the caller. *)
Record Item : Type := {
  item_label : string;
  item_destructive : bool;
  item_disabled : option (TData → bool);
  item_hidden : option (TData → bool);
  item_shortcut : option string;
}.

(** A [ContextMenuGroup]. *)
Record Group : Type := {
  group_label : option string;
  group_items : list Item;
}.

(** The [contextMenu] prop: an array of items or an array of groups. *)
Inductive Menu : Type :=
| Items (items : list Item)
| Groups (groups : list Group).

(** What is rendered, top to bottom. *)
Inductive Entry : Type :=
| Label (text : string)
| Choice (item : Item) (isDisabled : bool)
| Separator.

(** [!item.hidden || !item.hidden(row.original)]. *)
Definition isVisible (row : TData) (item : Item) : bool :=
  match item_hidden item with
  | None => true
  | Some hidden => negb (hidden row)
  end.

(** [item.disabled?.(row.original) || false]. *)
Definition isDisabled (row : TData) (item : Item) : bool :=
  match item_disabled item with
  | None => false
  | Some disabled => disabled row
  end.

Definition visibleItems (row : TData) (items : list Item) : list Item :=
  List.filter (isVisible row) items.

Definition renderItems (row : TData) (items : list Item) : list Entry :=
  List.map (λ item, Choice item (isDisabled row item)) (visibleItems row items).

(** The groups in turn: a group without visible item renders nothing; the
    others render their label when it is a non-empty string, their visible
    items, and a separator unless the group is the last of the array. *)
Fixpoint renderGroups (row : TData) (groups : list Group) : list Entry :=
  match groups with
  | [] => []
  | group :: rest =>
      match visibleItems row (group_items group) with
      | [] => []
      | _ :: _ =>
          (match group_label group with
           | Some text => if String.eqb text "" then [] else [Label text]
           | None => []
           end)
          ++ renderItems row (group_items group)
          ++ (match rest with
              | [] => []
              | _ :: _ => [Separator]
              end)
      end
      ++ renderGroups row rest
  end.

(** [renderContextMenuContent]: [None] stands for [null]. *)
Definition renderContextMenuContent (contextMenu : option Menu) (row : TData)
  : option (list Entry) :=
  match contextMenu with
  | None | Some (Items []) | Some (Groups []) => None
  | Some (Items items) => Some (renderItems row items)
  | Some (Groups groups) => Some (renderGroups row groups)
  end.

(** The items among the rendered entries. *)
Definition choices (entries : list Entry) : list Item :=
  omap (λ e, match e with Choice item _ => Some item | _ => None end) entries.

End ContextMenu.

(** * Properties *)

(** ** Row identity *)

(** C9, counterexample: a row whose [id] field is the empty string has an
    [id] field, whose string form is the empty string, yet the identity it
    receives is derived from its index. *)
Lemma getRowId_empty_id_counterexample :
  let row : TData := {[ "id"%string := Js.Str "" ]} in
  row !! "id"%string = Some (Js.Str "") ∧
  Js.toString (Js.Str "") = Some ""%string ∧
  getRowId row 3 = pretty 3%nat ∧
  getRowId row 3 ≠ ""%string.
Proof. vm_compute. repeat split; congruence. Qed.

(** C9, amended: the identity of a row is the string form of its [id]
    field whenever the field holds a value other than [null] and
    [undefined] whose string form is not empty; it is the decimal form of
    the row's position when the field is missing, holds [null] or
    [undefined], or has an empty string form. *)
Theorem getRowId_spec (row : TData) (index : nat) :
  (∀ v s, row !! "id"%string = Some v → Js.toString v = Some s → s ≠ ""%string →
          getRowId row index = s) ∧
  (∀ v, row !! "id"%string = Some v →
        Js.toString v = None ∨ Js.toString v = Some ""%string →
        getRowId row index = pretty index) ∧
  (row !! "id"%string = None → getRowId row index = pretty index).
Proof.
  unfold getRowId, Js.prop. repeat split.
  - intros v s Hid Hs Hne. rewrite Hid. simpl.
    assert (Hor : Js.or_string (Some s) (pretty index) = s).
    { simpl. destruct (String.eqb_spec s ""); congruence. }
    destruct v as [| | [|] | n | t]; simpl in *; try discriminate;
      injection Hs as <-; exact Hor.
  - intros v Hid Hs. rewrite Hid. simpl.
    destruct v as [| | [|] | n | t]; simpl in *; try reflexivity;
      destruct Hs as [Hs | Hs]; try discriminate;
      injection Hs as Hs; rewrite Hs; reflexivity.
  - intros Hid. rewrite Hid. reflexivity.
Qed.

Lemma getRowId_spec_witness :
  getRowId {[ "id"%string := Js.Num 7 ]} 2 = "7"%string ∧
  getRowId {[ "id"%string := Js.Null ]} 2 = "2"%string ∧
  getRowId ∅ 2 = "2"%string.
Proof.
  split; [| split].
  - apply (proj1 (getRowId_spec _ 2) (Js.Num 7) "7"%string);
      [reflexivity | reflexivity | discriminate].
  - apply (proj1 (proj2 (getRowId_spec _ 2)) Js.Null); [reflexivity | left; reflexivity].
  - apply (proj2 (proj2 (getRowId_spec ∅ 2))). reflexivity.
Defined.

(** ** Clearing the filters *)

(** C7: [handleClearFilters] empties the column filters, the search term
    and the panel values, and leaves row selection, sort keys, column
    pinning, column sizing and column visibility as they were. *)
Theorem handleClearFilters_frame (st : TableState) :
  columnFilters (handleClearFilters st) = [] ∧
  globalFilter (handleClearFilters st) = ""%string ∧
  filterValues (handleClearFilters st) = [] ∧
  rowSelection (handleClearFilters st) = rowSelection st ∧
  sorting (handleClearFilters st) = sorting st ∧
  columnPinning (handleClearFilters st) = columnPinning st ∧
  columnSizing (handleClearFilters st) = columnSizing st ∧
  columnVisibility (handleClearFilters st) = columnVisibility st.
Proof. repeat split. Qed.

(** ** Applying the panel values *)

Lemma appliedFilters_elem (values : list (string * Js.value)) (f : ColumnFilter) :
  f ∈ appliedFilters values ↔
  (filter_id f, filter_value f) ∈ values ∧ filterEntryActive (filter_value f) = true.
Proof.
  unfold appliedFilters. rewrite list_elem_of_In, in_map_iff. split.
  - intros [[k v] [<- Hin]]. apply filter_In in Hin as [Hin Hact].
    simpl in *. by rewrite list_elem_of_In.
  - intros [Hin Hact]. exists (filter_id f, filter_value f). split.
    + by destruct f.
    + apply filter_In. by rewrite <- list_elem_of_In.
Qed.

Lemma object_replace_elem (key : string) (w : Js.value)
    (obj : list (string * Js.value)) (k : string) (v : Js.value) :
  NoDup obj.*1 → key ∈ obj.*1 →
  (k, v) ∈ object_replace key w obj ↔ (k = key ∧ v = w) ∨ (k ≠ key ∧ (k, v) ∈ obj).
Proof.
  induction obj as [| [k' w'] rest IH]; simpl; intros Hnd Hkey.
  - by apply elem_of_nil in Hkey.
  - apply NoDup_cons in Hnd as [Hfresh Hnd].
    destruct (String.eqb_spec k' key) as [-> | Hne].
    + rewrite !elem_of_cons. split.
      * intros [[= -> ->] | Hin]; [by left |].
        right. split; [| by right].
        intros ->. apply Hfresh. apply list_elem_of_fmap. by exists (key, v).
      * intros [[-> ->] | [Hk [[= ? ?] | Hin]]]; [by left | congruence | by right].
    + apply elem_of_cons in Hkey as [-> | Hkey]; [done |].
      rewrite !elem_of_cons, (IH Hnd Hkey). split.
      * intros [[= -> ->] | [[-> ->] | [Hk Hin]]].
        -- right. split; [done | by left].
        -- by left.
        -- right. split; [done | by right].
      * intros [[-> ->] | [Hk [[= -> ->] | Hin]]].
        -- right. by left.
        -- by left.
        -- right. right. by split.
Qed.

Lemma object_insert_elem (key : string) (w : Js.value)
    (obj : list (string * Js.value)) (e : string * Js.value) :
  e ∈ object_insert key w obj ↔ e = (key, w) ∨ e ∈ obj.
Proof.
  induction obj as [| [k' w'] rest IH]; simpl.
  - rewrite list_elem_of_singleton, elem_of_nil. tauto.
  - destruct (listedBefore key k'); rewrite !elem_of_cons; [done |].
    rewrite IH. tauto.
Qed.

Lemma object_set_elem (key : string) (w : Js.value)
    (obj : list (string * Js.value)) (k : string) (v : Js.value) :
  NoDup obj.*1 →
  (k, v) ∈ object_set key w obj ↔ (k = key ∧ v = w) ∨ (k ≠ key ∧ (k, v) ∈ obj).
Proof.
  intros Hnd. unfold object_set. case_bool_decide as Hkey.
  - by apply object_replace_elem.
  - rewrite object_insert_elem. split.
    + intros [[= -> ->] | Hin]; [by left |]. right. split; [| done].
      intros ->. apply Hkey. apply list_elem_of_fmap. by exists (key, v).
    + intros [[-> ->] | [_ Hin]]; [by left | by right].
Qed.

(** C10: applying the filters replaces the whole column-filter list by the
    one derived from the current panel values, whatever was applied
    before; a filter is in the list only when the panel holds an active
    entry for it, so an entry that was applied and has since been emptied
    is removed by the next apply while the other filters stay. *)
Theorem handleApplyFilters_replaces (st : TableState) (old : list ColumnFilter)
    (id : string) :
  NoDup (filterValues st).*1 →
  columnFilters (handleApplyFilters (setColumnFilters old st))
    = appliedFilters (filterValues st) ∧
  (∀ f, f ∈ columnFilters (handleApplyFilters (setColumnFilters old st)) ↔
        (filter_id f, filter_value f) ∈ filterValues st
        ∧ filterEntryActive (filter_value f) = true) ∧
  (let applied := handleApplyFilters st in
   let emptied := handleApplyFilters (handleFilterChange id (Js.Str "") applied) in
   (∀ f, f ∈ columnFilters emptied → filter_id f ≠ id) ∧
   (∀ f, filter_id f ≠ id →
         (f ∈ columnFilters emptied ↔ f ∈ columnFilters applied))).
Proof.
  intros Hnd. split; [reflexivity |]. split.
  - intros f. apply appliedFilters_elem.
  - simpl. split.
    + intros f Hin Hid. apply appliedFilters_elem in Hin as [Hin Hact].
      apply (object_set_elem _ _ _ _ _ Hnd) in Hin as [[_ Hv] | [Hk _]]; [| done].
      rewrite Hv in Hact. discriminate.
    + intros f Hid. rewrite !appliedFilters_elem, (object_set_elem _ _ _ _ _ Hnd).
      split; [intros [[[? ?] | [_ ?]] ?] | intros [? ?]]; try done.
      split; [right |]; done.
Qed.

Lemma handleApplyFilters_replaces_witness :
  let st := handleFilterChange "role" (Js.Str "dev")
              (handleFilterChange "name" (Js.Str "ann") initialState) in
  columnFilters
    (handleApplyFilters (handleFilterChange "name" (Js.Str "") (handleApplyFilters st)))
  = [ {| filter_id := "role"; filter_value := Js.Str "dev" |} ] ∧
  ∀ f, f ∈ columnFilters
             (handleApplyFilters (handleFilterChange "name" (Js.Str "") (handleApplyFilters st)))
       → filter_id f ≠ "name"%string.
Proof.
  split; [reflexivity |].
  refine (proj1 (proj2 (proj2 (handleApplyFilters_replaces _ [] "name" _)))).
  compute_done.
Defined.

(** ** Clamping a width *)

(** C6, counterexample: a column whose [minSize] and [maxSize] are both 0.
    A width clamped to the interval from 0 to 0 is 0; the handler applies
    600 for the proposal 700 and 40 for the proposal 10, because a bound of
    0 is replaced by the handler's default. *)
Lemma finalWidth_zero_bounds_counterexample :
  let column := {| col_id := "name"; header := Some "Name"%string;
                   enableSorting := None; enableHiding := None;
                   enableResizing := None; enablePinning := None;
                   enableColumnFilter := None;
                   defSize := None; minSize := Some 0; maxSize := Some 0 |} in
  minSize column = Some 0 ∧ maxSize column = Some 0 ∧
  Z.min (Z.max 700 0) 0 = 0 ∧
  finalWidth compactMetrics column 700 = 600 ∧
  finalWidth compactMetrics column 10 = 40 ∧
  storedWidth compactMetrics column (Number.Int 700) = Number.Int 600 ∧
  ¬ (0 ≤ finalWidth compactMetrics column 700 ≤ 0).
Proof. cbv zeta. split_and!; try reflexivity. vm_compute. intros [_ H]. by apply H. Qed.

(** C6, amended: for every column and every proposed width that is a
    number, the width applied by the resize handler is the proposal
    clamped to the interval from lo to hi, where lo is the column's
    [minSize] when that is set and not zero and the handler's default
    otherwise (40, or 50 in the wide variant), and hi is the column's
    [maxSize] when that is set and not zero and the default otherwise (600,
    or 800). Whenever lo does not exceed hi the applied width lies in the
    interval, equals the proposal when that already lies in it, and is the
    nearer bound otherwise; when lo exceeds hi the applied width is hi. The
    handler stores the applied width under the column's id for every
    column and proposal (it never rejects), and clamping an applied width
    again gives the same width. *)
Theorem finalWidth_clamps (m : AutoFitMetrics) (column : ColumnDef) (w : Z)
    (toLocaleDateString : Js.value → string) (cellValues : list Js.value)
    (st : TableState) :
  let lo := Js.or_number (minSize column) (defaultMinSize m) in
  let hi := Js.or_number (maxSize column) (defaultMaxSize m) in
  (∀ l, minSize column = Some l → l ≠ 0 → lo = l) ∧
  (minSize column = None ∨ minSize column = Some 0 → lo = defaultMinSize m) ∧
  (∀ h, maxSize column = Some h → h ≠ 0 → hi = h) ∧
  (maxSize column = None ∨ maxSize column = Some 0 → hi = defaultMaxSize m) ∧
  defaultMinSize compactMetrics = 40 ∧ defaultMaxSize compactMetrics = 600 ∧
  defaultMinSize wideMetrics = 50 ∧ defaultMaxSize wideMetrics = 800 ∧
  storedWidth m column (Number.Int w) = Number.Int (finalWidth m column w) ∧
  (lo ≤ hi →
   lo ≤ finalWidth m column w ≤ hi ∧
   (lo ≤ w ≤ hi → finalWidth m column w = w) ∧
   (w < lo → finalWidth m column w = lo) ∧
   (hi < w → finalWidth m column w = hi)) ∧
  (hi < lo → finalWidth m column w = hi) ∧
  finalWidth m column (finalWidth m column w) = finalWidth m column w ∧
  columnSizing (autoFitColumn m toLocaleDateString column cellValues st)
    !! col_id column
    = Some (storedWidth m column (maxWidth m toLocaleDateString column cellValues)).
Proof.
  simpl. split_and!; try reflexivity.
  - intros l -> Hl. simpl. by destruct (Z.eqb_spec l 0).
  - by intros [-> | ->].
  - intros h -> Hh. simpl. by destruct (Z.eqb_spec h 0).
  - by intros [-> | ->].
  - unfold finalWidth. lia.
  - unfold finalWidth. lia.
  - unfold finalWidth. lia.
  - unfold autoFitColumn. simpl. apply lookup_insert_eq.
Qed.

Lemma finalWidth_clamps_witness :
  finalWidth compactMetrics Sample.nameColumn 30 = 100 ∧
  finalWidth compactMetrics Sample.nameColumn 250 = 250 ∧
  finalWidth compactMetrics Sample.nameColumn 900 = 300.
Proof.
  pose proof (finalWidth_clamps compactMetrics Sample.nameColumn 30 (λ _, ""%string)
                [] initialState)
    as (_ & _ & _ & _ & _ & _ & _ & _ & _ & Hlow & _).
  pose proof (finalWidth_clamps compactMetrics Sample.nameColumn 250 (λ _, ""%string)
                [] initialState)
    as (_ & _ & _ & _ & _ & _ & _ & _ & _ & Hmid & _).
  pose proof (finalWidth_clamps compactMetrics Sample.nameColumn 900 (λ _, ""%string)
                [] initialState)
    as (_ & _ & _ & _ & _ & _ & _ & _ & _ & Hhigh & _).
  simpl in Hlow, Hmid, Hhigh.
  split_and!.
  - apply Hlow; lia.
  - apply Hmid; lia.
  - apply Hhigh; lia.
Defined.

(** ** Active filter values *)

Lemma blank_rev_app (s t : string) :
  Js.blank (String.rev_app s t) = Js.blank s && Js.blank t.
Proof.
  revert t. induction s as [| a s IH]; intros t; simpl; [done |].
  rewrite IH. simpl. by destruct (Js.is_white_space a), (Js.blank s).
Qed.

Lemma blank_rev (s : string) : Js.blank (String.rev s) = Js.blank s.
Proof. unfold String.rev. rewrite blank_rev_app. simpl. by rewrite andb_true_r. Qed.

Lemma blank_trimStart (s : string) : Js.blank (Js.trimStart s) = Js.blank s.
Proof.
  induction s as [| a s IH]; simpl; [done |].
  destruct (Js.is_white_space a) eqn:Ha; simpl; [done | by rewrite Ha].
Qed.

Lemma trimStart_empty (s : string) :
  Js.trimStart s = ""%string ↔ Js.blank s = true.
Proof.
  induction s as [| a s IH]; simpl; [done |].
  destruct (Js.is_white_space a); simpl; [done |]. split; discriminate.
Qed.

Lemma rev_app_empty (s t : string) :
  String.rev_app s t = ""%string ↔ s = ""%string ∧ t = ""%string.
Proof.
  revert t. induction s as [| a s IH]; intros t; simpl.
  - split; [by intros -> | by intros [_ ->]].
  - rewrite IH. split; intros [? ?]; discriminate.
Qed.

Lemma rev_empty (s : string) : String.rev s = ""%string ↔ s = ""%string.
Proof.
  unfold String.rev. rewrite rev_app_empty.
  split; [by intros [-> _] | by intros ->].
Qed.

(** [s.trim() !== ''] holds exactly when [s] has a character that is not
    white space. *)
Lemma trim_empty (s : string) : Js.trim s = ""%string ↔ Js.blank s = true.
Proof.
  unfold Js.trim, Js.trimEnd.
  by rewrite rev_empty, trimStart_empty, blank_rev, blank_trimStart.
Qed.

Lemma filterEntryActive_text (s : string) :
  filterEntryActive (Js.Str s) = negb (Js.blank s).
Proof.
  unfold filterEntryActive. simpl.
  destruct (String.eqb_spec (Js.trim s) "") as [He | Hne].
  - apply trim_empty in He. rewrite He. by rewrite andb_false_r.
  - destruct (Js.blank s) eqn:Hb.
    + by apply trim_empty in Hb.
    + simpl. destruct (String.eqb_spec s ""); [subst; discriminate | done].
Qed.

Lemma string_truthy_spec (o : option string) :
  AdvancedFilter.string_truthy o = true ↔ ∃ s, o = Some s ∧ s ≠ ""%string.
Proof.
  destruct o as [s |]; simpl.
  - destruct (String.eqb_spec s ""); simpl; split.
    + discriminate.
    + intros (t & [= <-] & Hne). congruence.
    + intros _. by exists s.
    + done.
  - split; [discriminate | by intros (s & ? & _)].
Qed.

Lemma multiselect_active_spec (o : option (list string)) :
  match o with
  | Some l => bool_decide (0 < length l)%nat
  | None => false
  end = true ↔ ∃ l, o = Some l ∧ l ≠ [].
Proof.
  destruct o as [l |].
  - rewrite bool_decide_eq_true. split.
    + intros Hlen. exists l. split; [done |]. intros ->. simpl in Hlen. lia.
    + intros (l' & [= <-] & Hne). destruct l; [done | simpl; lia].
  - split; [discriminate | by intros (l & ? & _)].
Qed.

Lemma daterange_active_spec (o : option AdvancedFilter.DateRange) :
  match o with
  | Some r => bool_decide (AdvancedFilter.range_from r ≠ None)
              || bool_decide (AdvancedFilter.range_to r ≠ None)
  | None => false
  end = true ↔
  ∃ r, o = Some r ∧
       (AdvancedFilter.range_from r ≠ None ∨ AdvancedFilter.range_to r ≠ None).
Proof.
  destruct o as [r |].
  - rewrite orb_true_iff, !bool_decide_eq_true. split.
    + intros H. by exists r.
    + by intros (r' & [= <-] & H).
  - split; [discriminate | by intros (r & ? & _)].
Qed.

(** C5, counterexample: a panel entry that holds two spaces has a
    non-empty payload, yet applying the filters leaves the column-filter
    list empty. *)
Lemma handleApplyFilters_blank_text_counterexample :
  let st := handleFilterChange "name" (Js.Str "  ") initialState in
  filterValues st = [("name"%string, Js.Str "  ")] ∧
  "  "%string ≠ ""%string ∧
  columnFilters (handleApplyFilters st) = [].
Proof. repeat split. discriminate. Qed.

(** C5, amended: in the advanced panel a filter value is active exactly
    when one of its payload fields is non-empty (a non-empty text or
    selected option, a defined number, zero included, a non-empty set of
    options, a date, or a date range with at least one bound); an absent
    value is inactive. Applying the filters of the table's text panel puts
    into the column-filter list exactly the entries whose text has a
    character other than white space, in panel order, so every other entry
    contributes no constraint. *)
Theorem filter_activity (v : AdvancedFilter.FilterValue)
    (localValues : gmap string AdvancedFilter.FilterValue)
    (entries : list (string * string)) (st : TableState) :
  (AdvancedFilter.isActive (Some v) = true ↔
     (∃ s, AdvancedFilter.text v = Some s ∧ s ≠ ""%string)
     ∨ AdvancedFilter.number v ≠ None
     ∨ (∃ s, AdvancedFilter.select v = Some s ∧ s ≠ ""%string)
     ∨ (∃ l, AdvancedFilter.multiselect v = Some l ∧ l ≠ [])
     ∨ AdvancedFilter.date v ≠ None
     ∨ (∃ r, AdvancedFilter.daterange v = Some r ∧
             (AdvancedFilter.range_from r ≠ None ∨ AdvancedFilter.range_to r ≠ None))) ∧
  AdvancedFilter.isActive None = false ∧
  (AdvancedFilter.hasActiveFilters localValues = true ↔
     ∃ key value, localValues !! key = Some value
                  ∧ AdvancedFilter.isActive (Some value) = true) ∧
  columnFilters
    (handleApplyFilters
       (setFilterValues (List.map (λ e, (e.1, Js.Str e.2)) entries) st))
    = List.map (λ e, {| filter_id := e.1; filter_value := Js.Str e.2 |})
        (List.filter (λ e, negb (Js.blank e.2)) entries).
Proof.
  split; [| split; [reflexivity | split]].
  - unfold AdvancedFilter.isActive.
    rewrite !orb_true_iff, !string_truthy_spec, multiselect_active_spec,
      daterange_active_spec, !bool_decide_eq_true. tauto.
  - unfold AdvancedFilter.hasActiveFilters, AdvancedFilter.keys.
    rewrite existsb_exists. split.
    + intros (key & Hin & Hact). apply list_elem_of_In, list_elem_of_fmap in Hin
        as ([k value] & -> & Hin). apply elem_of_map_to_list in Hin.
      exists k, value. simpl in Hact. rewrite Hin in Hact. by split.
    + intros (key & value & Hlook & Hact). exists key. split.
      * apply list_elem_of_In, list_elem_of_fmap. exists (key, value).
        split; [done |]. by apply elem_of_map_to_list.
      * by rewrite Hlook.
  - unfold handleApplyFilters, appliedFilters. simpl.
    induction entries as [| [k s] rest IH]; simpl; [done |].
    rewrite filterEntryActive_text. destruct (Js.blank s); simpl; by rewrite IH.
Qed.

Lemma filter_activity_witness :
  AdvancedFilter.isActive
    (Some {| AdvancedFilter.text := None; AdvancedFilter.number := Some 0;
             AdvancedFilter.select := None; AdvancedFilter.multiselect := Some [];
             AdvancedFilter.date := None; AdvancedFilter.daterange := None |}) = true.
Proof.
  apply (proj1 (filter_activity _ ∅ [] initialState)). right. left. discriminate.
Defined.

(** ** Row models *)

Lemma findIndex_first {A : Type} (p : A → bool) (l : list A) (k : nat) (x : A) :
  l !! k = Some x → p x = true →
  (∀ j y, (j < k)%nat → l !! j = Some y → p y = false) →
  Js.findIndex p l = Z.of_nat k.
Proof.
  revert k. induction l as [| a l IH]; intros k Hk Hp Hbefore; [done |].
  destruct k as [| k]; simpl in *.
  - injection Hk as ->. by rewrite Hp.
  - rewrite (Hbefore 0%nat a); [| lia | done].
    rewrite (IH k Hk Hp).
    + destruct (Z.ltb_spec (Z.of_nat k) 0); lia.
    + intros j y Hj Hy. apply (Hbefore (S j) y); [lia | done].
Qed.

Lemma findIndex_exists {A : Type} (p : A → bool) (l : list A) (x : A) :
  x ∈ l → p x = true →
  ∃ k y, l !! k = Some y ∧ p y = true
         ∧ (∀ j z, (j < k)%nat → l !! j = Some z → p z = false)
         ∧ Js.findIndex p l = Z.of_nat k.
Proof.
  intros Hin Hp. induction l as [| a l IH]; [by apply elem_of_nil in Hin |].
  simpl. destruct (p a) eqn:Ha.
  - exists 0%nat, a. split_and!; [done | done | lia | done].
  - apply elem_of_cons in Hin as [-> | Hin]; [congruence |].
    destruct (IH Hin) as (k & y & Hk & Hy & Hbefore & ->).
    exists (S k), y. split_and!; [done | done | | ].
    + intros [| j] z Hj Hz; simpl in Hz; [congruence |].
      apply (Hbefore j z); [lia | done].
    + destruct (Z.ltb_spec (Z.of_nat k) 0); lia.
Qed.

Lemma findIndex_nodup (l : list Row) (k : nat) (row : Row) :
  NoDup (row_id <$> l) → l !! k = Some row →
  Js.findIndex (λ r, String.eqb (row_id r) (row_id row)) l = Z.of_nat k.
Proof.
  intros Hnd Hk. apply (findIndex_first _ _ _ row Hk).
  - apply String.eqb_refl.
  - intros j y Hj Hy. apply String.eqb_neq. intros Heq.
    assert (j = k); [| lia].
    apply (NoDup_lookup _ _ _ (row_id row) Hnd); rewrite list_lookup_fmap.
    + by rewrite Hy, <- Heq.
    + by rewrite Hk.
Qed.

Section RowModelProperties.

Context (props : DataTableProps) (fns : RowModelFns).

Lemma insertRow_Permutation (keys : list ColumnSort) (r : Row) (l : list Row) :
  insertRow fns keys r l ≡ₚ r :: l.
Proof.
  induction l as [| x l IH]; simpl; [done |].
  destruct (compareRows fns keys r x <=? 0); [done |].
  rewrite IH. apply Permutation_swap.
Qed.

Lemma sortRows_Permutation (keys : list ColumnSort) (l : list Row) :
  sortRows fns keys l ≡ₚ l.
Proof.
  unfold sortRows. induction l as [| x l IH]; simpl; [done |].
  by rewrite insertRow_Permutation, IH.
Qed.

(** The rendered rows are the filtered rows, possibly reordered. *)
Lemma getRowModel_Permutation (st : TableState) :
  getRowModel props fns st ≡ₚ getFilteredRowModel props fns st.
Proof.
  unfold getRowModel, getSortedRowModel.
  destruct (sorting st); [done | apply sortRows_Permutation].
Qed.

Lemma getFilteredRowModel_elem (st : TableState) (row : Row) :
  row ∈ getFilteredRowModel props fns st ↔
  row ∈ getCoreRowModel props ∧ rowPassesFilters fns st row = true.
Proof.
  unfold getFilteredRowModel. by rewrite !list_elem_of_In, filter_In.
Qed.

(** Without column filters and search term every row passes. *)
Lemma getFilteredRowModel_unfiltered (st : TableState) :
  columnFilters st = [] → globalFilter st = ""%string →
  getFilteredRowModel props fns st = getCoreRowModel props.
Proof.
  intros Hcf Hgf. unfold getFilteredRowModel.
  induction (getCoreRowModel props) as [| row l IH]; simpl; [done |].
  unfold rowPassesFilters at 1. rewrite Hcf, Hgf. simpl. by rewrite IH.
Qed.

Lemma getFilteredRowModel_nodup (st : TableState) :
  NoDup (row_id <$> getCoreRowModel props) →
  NoDup (row_id <$> getFilteredRowModel props fns st).
Proof.
  unfold getFilteredRowModel.
  induction (getCoreRowModel props) as [| row l IH]; simpl; [done |].
  intros [Hfresh Hnd]%NoDup_cons.
  destruct (rowPassesFilters fns st row); [| by apply IH].
  simpl. apply NoDup_cons. split; [| by apply IH].
  intros Hin. apply Hfresh.
  apply list_elem_of_fmap in Hin as (r & -> & Hr). apply list_elem_of_fmap.
  exists r. split; [done |].
  apply list_elem_of_In, filter_In in Hr as [Hr _]. by apply list_elem_of_In.
Qed.

Lemma getFilteredSelectedRowModel_elem (st : TableState) (row : Row) :
  row ∈ getFilteredSelectedRowModel props fns st ↔
  row ∈ getFilteredRowModel props fns st ∧ rowSelection st !! row_id row = Some true.
Proof.
  unfold getFilteredSelectedRowModel, isRowSelected.
  by rewrite !list_elem_of_In, filter_In, bool_decide_eq_true.
Qed.

Lemma selectRows_lookup (rows : list Row) (sel : gmap string bool) (id : string) :
  selectable props = true →
  selectRows props rows sel !! id
  = if decide (id ∈ row_id <$> rows) then Some true else sel !! id.
Proof.
  intros Hsel. unfold selectRows. rewrite Hsel.
  revert sel. induction rows as [| r rows IH]; intros sel.
  - by rewrite decide_False by apply not_elem_of_nil.
  - cbn [foldl]. rewrite IH, fmap_cons.
    destruct (decide (id ∈ row_id <$> rows)) as [Hin | Hnin].
    + by rewrite decide_True by (by right).
    + destruct (decide (id = row_id r)) as [-> | Hne].
      * rewrite lookup_insert_eq. by rewrite decide_True by (by left).
      * rewrite lookup_insert_ne by done.
        rewrite decide_False; [done |]. by intros [? | ?]%elem_of_cons.
Qed.

Lemma deselectRows_lookup (rows : list Row) (sel : gmap string bool) (id : string) :
  deselectRows rows sel !! id
  = if decide (id ∈ row_id <$> rows) then None else sel !! id.
Proof.
  unfold deselectRows.
  revert sel. induction rows as [| r rows IH]; intros sel.
  - by rewrite decide_False by apply not_elem_of_nil.
  - cbn [foldl]. rewrite IH, fmap_cons.
    destruct (decide (id ∈ row_id <$> rows)) as [Hin | Hnin].
    + by rewrite decide_True by (by right).
    + destruct (decide (id = row_id r)) as [-> | Hne].
      * rewrite lookup_delete_eq. by rewrite decide_True by (by left).
      * rewrite lookup_delete_ne by done.
        rewrite decide_False; [done |]. by intros [? | ?]%elem_of_cons.
Qed.

(** The filter panel and the search box never write the selection. *)
Lemma filter_actions_keep_selection (actions : list Action) (st : TableState) :
  Forall (λ a, isFilterAction a = true) actions →
  rowSelection (run props fns st actions) = rowSelection st.
Proof.
  unfold run. revert st.
  induction actions as [| a actions IH]; intros st Hall; simpl; [done |].
  apply Forall_cons in Hall as [Ha Hall]. rewrite (IH _ Hall).
  by destruct a.
Qed.

End RowModelProperties.

(** ** Selection *)

(** The state cells of the component are those of the transition system. *)
Lemma cells_foldl_handle (props : DataTableProps) (fns : RowModelFns)
    (c : Component) (actions : list Action) :
  cells (foldl (handle props fns) c actions) = run props fns (cells c) actions.
Proof.
  unfold run. revert c. induction actions as [| a actions IH]; intros c; [done |].
  simpl. by rewrite IH.
Qed.

(** The filter panel and the search box leave the memo cell as it is: the
    selected-rows list is not computed again while only filters change. *)
Lemma filter_actions_keep_the_memo (props : DataTableProps) (fns : RowModelFns)
    (c : Component) (actions : list Action) :
  Forall (λ a, isFilterAction a = true) actions →
  selectedRowsData (foldl (handle props fns) c actions) = selectedRowsData c.
Proof.
  revert c. induction actions as [| a actions IH]; intros c Hall; [done |].
  apply Forall_cons in Hall as [Ha Hall]. simpl. rewrite (IH _ Hall).
  by destruct a.
Qed.

(** A selected row stays in the selection state while filters are changed
    and applied and after they are cleared, and the callback of the memo
    cell, evaluated in a state, gives exactly the records of the rows that
    are both selected and in the filtered view. *)
Lemma selection_state_survives_filters (props : DataTableProps) (fns : RowModelFns)
    (st : TableState) (X : Row) (filterActions : list Action) :
  selectable props = true →
  X ∈ getCoreRowModel props →
  Forall (λ a, isFilterAction a = true) filterActions →
  let selected := toggleSelected props X (Some true) st in
  let filtered := run props fns selected filterActions in
  let cleared := handleClearFilters filtered in
  rowSelection selected !! row_id X = Some true ∧
  rowSelection filtered !! row_id X = Some true ∧
  (rowPassesFilters fns filtered X = false →
   X ∉ getFilteredSelectedRowModel props fns filtered) ∧
  rowSelection cleared !! row_id X = Some true ∧
  X ∈ getFilteredSelectedRowModel props fns cleared ∧
  (∀ s row, row ∈ getFilteredSelectedRowModel props fns s ↔
            row ∈ getFilteredRowModel props fns s
            ∧ rowSelection s !! row_id row = Some true) ∧
  (∀ s, computeSelectedRowsData props fns s
        = original <$> getFilteredSelectedRowModel props fns s).
Proof.
  intros Hsel HX Hall. simpl.
  assert (Hselected :
    rowSelection (toggleSelected props X (Some true) st) !! row_id X = Some true).
  { unfold toggleSelected, isRowSelected. rewrite Hsel. simpl.
    case_bool_decide as Hcur; simpl.
    - by apply bool_decide_eq_true in Hcur.
    - apply lookup_insert_eq. }
  assert (Hfiltered :
    rowSelection (run props fns (toggleSelected props X (Some true) st) filterActions)
      !! row_id X = Some true).
  { by rewrite filter_actions_keep_selection. }
  assert (Hin : X ∈ getFilteredSelectedRowModel props fns
            (handleClearFilters
               (run props fns (toggleSelected props X (Some true) st) filterActions))).
  { apply getFilteredSelectedRowModel_elem. split; [| done].
    by rewrite getFilteredRowModel_unfiltered. }
  split_and!; try done.
  - intros Hout [Hview _]%getFilteredSelectedRowModel_elem.
    apply getFilteredRowModel_elem in Hview as [_ Hpass]. congruence.
  - intros s row. apply getFilteredSelectedRowModel_elem.
Qed.

(** C1: the two-row sample table. Row [a] is selected, then the filter
    panel is set to keep row [b] only and applied. Row [a] is still in the
    selection state and the filtered view holds row [b] alone, so the rows
    that are both selected and in the view are none, and that is what the
    callback of the memo cell would compute. The memo cell was last
    computed when the row was selected and none of its dependencies has
    changed since: the selected rows that the component holds, and reports
    to its parent, are still the record of row [a]. *)
Lemma selectedRowsData_stale_after_filter :
  let X := {| row_id := "a"; original := Sample.record "a" 2; row_index := 0 |} in
  let c := play Sample.props Sample.fns
             [ToggleRowSelected X (Some true);
              FilterChange "id" (Js.Str "b"); ApplyFilters] in
  rowSelection (cells c) !! "a"%string = Some true ∧
  original <$> getFilteredRowModel Sample.props Sample.fns (cells c)
    = [Sample.record "b" 1] ∧
  computeSelectedRowsData Sample.props Sample.fns (cells c) = [] ∧
  selectedRowsData c = [Sample.record "a" 2] ∧
  selectedRowsData c ≠ computeSelectedRowsData Sample.props Sample.fns (cells c).
Proof.
  cbv zeta.
  assert (Hmemo : selectedRowsData
    (play Sample.props Sample.fns
       [ToggleRowSelected
          {| row_id := "a"; original := Sample.record "a" 2; row_index := 0 |}
          (Some true);
        FilterChange "id" (Js.Str "b"); ApplyFilters])
    = [Sample.record "a" 2]).
  { change (selectedRowsData
      (foldl (handle Sample.props Sample.fns)
         (handle Sample.props Sample.fns (mount Sample.props Sample.fns)
            (ToggleRowSelected
               {| row_id := "a"; original := Sample.record "a" 2; row_index := 0 |}
               (Some true)))
         [FilterChange "id" (Js.Str "b"); ApplyFilters])
      = [Sample.record "a" 2]).
    rewrite filter_actions_keep_the_memo by (repeat constructor).
    reflexivity. }
  split_and!; [reflexivity | reflexivity | reflexivity | exact Hmemo |].
  rewrite Hmemo. discriminate.
Qed.

(** On a dataset with pairwise distinct identities a row of the dataset is
    named by an id of the filtered view exactly when it is in that view. *)
Lemma filtered_id_names_the_row (props : DataTableProps) (fns : RowModelFns)
    (st : TableState) (row : Row) :
  NoDup (row_id <$> getCoreRowModel props) →
  row ∈ getCoreRowModel props →
  row_id row ∈ row_id <$> getFilteredRowModel props fns st
  ↔ row ∈ getFilteredRowModel props fns st.
Proof.
  intros Hnd Hrow. split.
  - intros (other & Hid & Hother)%list_elem_of_fmap.
    pose proof Hother as [Hcore _]%getFilteredRowModel_elem.
    apply list_elem_of_lookup in Hrow as [i Hi].
    apply list_elem_of_lookup in Hcore as [j Hj].
    assert (i = j) as ->.
    { apply (NoDup_lookup _ _ _ (row_id row) Hnd); rewrite list_lookup_fmap.
      - by rewrite Hi.
      - by rewrite Hj, Hid. }
    rewrite Hi in Hj. by injection Hj as ->.
  - intros Hview. apply list_elem_of_fmap. by exists row.
Qed.

(** C2, counterexample: a record without [id] at position 0 and a record
    whose [id] is ["0"] share the identity ["0"]. A filter keeps the second
    record only; select-all then marks the identity ["0"], and with it the
    first record, which is outside the filter and was not selected: after
    the filters are cleared it is among the selected rows. *)
Lemma select_all_clashing_ids_counterexample :
  let outside := {| row_id := "0"; original := Sample.anonymous 5; row_index := 0 |} in
  let st := run Sample.clashingProps Sample.fns initialState
              [FilterChange "n" (Js.Num 7); ApplyFilters] in
  let on := toggleAllRowsSelected Sample.clashingProps Sample.fns (Some true) st in
  outside ∈ getCoreRowModel Sample.clashingProps ∧
  original <$> getFilteredRowModel Sample.clashingProps Sample.fns st
    = [Sample.record "0" 7] ∧
  (outside ∉ getFilteredRowModel Sample.clashingProps Sample.fns st) ∧
  isRowSelected st outside = false ∧
  isRowSelected on outside = true ∧
  original <$> getFilteredSelectedRowModel Sample.clashingProps Sample.fns
                 (handleClearFilters on)
    = [Sample.anonymous 5; Sample.record "0" 7].
Proof.
  cbv zeta. split_and!.
  - left.
  - reflexivity.
  - assert (Hview : getFilteredRowModel Sample.clashingProps Sample.fns
      (run Sample.clashingProps Sample.fns initialState
         [FilterChange "n" (Js.Num 7); ApplyFilters])
      = [ {| row_id := "0"; original := Sample.record "0" 7; row_index := 1 |} ])
      by reflexivity.
    rewrite Hview. apply not_elem_of_cons. split; [discriminate | apply not_elem_of_nil].
  - reflexivity.
  - reflexivity.
  - reflexivity.
Qed.

(** C2, amended: on a dataset whose row identities are pairwise distinct,
    select-all selects exactly the rows of the currently filtered view: a
    row of the dataset is selected afterwards exactly when it is in the
    view or was selected before, so rows outside the filter are not
    selected by it and keep their state. Switching it off deselects
    exactly the rows of the view and leaves the rows outside it as they
    were. In terms of ids, which needs no condition on the dataset:
    select-all marks exactly the ids of the filtered rows and leaves every
    other id of the selection state as it was, and switching off removes
    exactly those ids. The button picks the direction from
    [getIsAllRowsSelected]; the header checkbox does the same over the
    rendered rows; clearing the filters afterwards changes neither the
    selection state nor, therefore, which rows are selected. *)
Theorem select_all_scope (props : DataTableProps) (fns : RowModelFns)
    (st : TableState) :
  selectable props = true →
  NoDup (row_id <$> getCoreRowModel props) →
  let view := getFilteredRowModel props fns st in
  let ids := row_id <$> view in
  let on := toggleAllRowsSelected props fns (Some true) st in
  let off := toggleAllRowsSelected props fns (Some false) st in
  (∀ row, row ∈ getCoreRowModel props →
          (isRowSelected on row = true
           ↔ row ∈ view ∨ isRowSelected st row = true)) ∧
  (∀ row, row ∈ getCoreRowModel props →
          (isRowSelected off row = true
           ↔ (row ∉ view) ∧ isRowSelected st row = true)) ∧
  (∀ row, row ∈ getCoreRowModel props → row ∉ view →
          isRowSelected on row = isRowSelected st row
          ∧ isRowSelected off row = isRowSelected st row) ∧
  (∀ id, id ∈ ids → rowSelection on !! id = Some true) ∧
  (∀ id, id ∉ ids → rowSelection on !! id = rowSelection st !! id) ∧
  (∀ id, id ∈ ids → rowSelection off !! id = None) ∧
  (∀ id, id ∉ ids → rowSelection off !! id = rowSelection st !! id) ∧
  toggleAllRowsSelected props fns None st
    = (if getIsAllRowsSelected props fns st then off else on) ∧
  rowSelection (toggleAllPageRowsSelected props fns true st) = rowSelection on ∧
  rowSelection (toggleAllPageRowsSelected props fns false st) = rowSelection off ∧
  rowSelection (handleClearFilters on) = rowSelection on ∧
  (∀ row, row ∈ getFilteredSelectedRowModel props fns (handleClearFilters on)
          ↔ row ∈ getCoreRowModel props
            ∧ (row ∈ view ∨ isRowSelected st row = true)).
Proof.
  intros Hsel Hnd. cbv zeta.
  assert (Hids : ∀ id, id ∈ row_id <$> getRowModel props fns st ↔
                       id ∈ row_id <$> getFilteredRowModel props fns st).
  { intros id. by rewrite getRowModel_Permutation. }
  assert (Hon : ∀ id,
    rowSelection (toggleAllRowsSelected props fns (Some true) st) !! id
    = if decide (id ∈ row_id <$> getFilteredRowModel props fns st)
      then Some true else rowSelection st !! id).
  { intros id. unfold toggleAllRowsSelected. simpl. by rewrite selectRows_lookup. }
  assert (Hoff : ∀ id,
    rowSelection (toggleAllRowsSelected props fns (Some false) st) !! id
    = if decide (id ∈ row_id <$> getFilteredRowModel props fns st)
      then None else rowSelection st !! id).
  { intros id. unfold toggleAllRowsSelected. simpl. by rewrite deselectRows_lookup. }
  assert (Hrow_on : ∀ row, row ∈ getCoreRowModel props →
    (isRowSelected (toggleAllRowsSelected props fns (Some true) st) row = true
     ↔ row ∈ getFilteredRowModel props fns st ∨ isRowSelected st row = true)).
  { intros row Hrow. unfold isRowSelected. rewrite !bool_decide_eq_true, Hon.
    rewrite <- (filtered_id_names_the_row props fns st row Hnd Hrow).
    destruct (decide (row_id row ∈ row_id <$> getFilteredRowModel props fns st));
      tauto. }
  assert (Hrow_off : ∀ row, row ∈ getCoreRowModel props →
    (isRowSelected (toggleAllRowsSelected props fns (Some false) st) row = true
     ↔ (row ∉ getFilteredRowModel props fns st) ∧ isRowSelected st row = true)).
  { intros row Hrow. unfold isRowSelected. rewrite !bool_decide_eq_true, Hoff.
    rewrite <- (filtered_id_names_the_row props fns st row Hnd Hrow).
    destruct (decide (row_id row ∈ row_id <$> getFilteredRowModel props fns st));
      [split; [done | tauto] | tauto]. }
  split_and!.
  - exact Hrow_on.
  - exact Hrow_off.
  - intros row Hrow Hout.
    apply (not_iff_compat (filtered_id_names_the_row props fns st row Hnd Hrow)) in Hout.
    unfold isRowSelected. by rewrite Hon, Hoff, !decide_False.
  - intros id Hin. by rewrite Hon, decide_True.
  - intros id Hnin. by rewrite Hon, decide_False.
  - intros id Hin. by rewrite Hoff, decide_True.
  - intros id Hnin. by rewrite Hoff, decide_False.
  - unfold toggleAllRowsSelected. simpl.
    by destruct (getIsAllRowsSelected props fns st).
  - apply map_eq. intros id. rewrite Hon. unfold toggleAllPageRowsSelected.
    simpl. rewrite !selectRows_lookup by done.
    destruct (decide (id ∈ row_id <$> getRowModel props fns st)) as [Hin | Hnin].
    + by rewrite decide_True by (by apply Hids).
    + by rewrite decide_False by (by rewrite <- Hids).
  - apply map_eq. intros id. rewrite Hoff. unfold toggleAllPageRowsSelected.
    simpl. rewrite !deselectRows_lookup.
    destruct (decide (id ∈ row_id <$> getRowModel props fns st)) as [Hin | Hnin].
    + by rewrite decide_True by (by apply Hids).
    + by rewrite decide_False by (by rewrite <- Hids).
  - reflexivity.
  - intros row. rewrite getFilteredSelectedRowModel_elem.
    rewrite getFilteredRowModel_unfiltered by done.
    split.
    + intros [Hrow Hselected]. split; [done |]. apply (Hrow_on row Hrow).
      unfold isRowSelected. by apply bool_decide_eq_true.
    + intros [Hrow Hselected]. split; [done |].
      apply (Hrow_on row Hrow) in Hselected. unfold isRowSelected in Hselected.
      by apply bool_decide_eq_true in Hselected.
Qed.

Lemma select_all_scope_witness :
  let st := handleApplyFilters (handleFilterChange "id" (Js.Str "b") initialState) in
  rowSelection (toggleAllRowsSelected Sample.props Sample.fns (Some true) st)
    !! "b"%string = Some true ∧
  rowSelection (toggleAllRowsSelected Sample.props Sample.fns (Some true) st)
    !! "a"%string = None.
Proof.
  pose proof (select_all_scope Sample.props Sample.fns
    (handleApplyFilters (handleFilterChange "id" (Js.Str "b") initialState)) eq_refl
    ltac:(compute_done))
    as (_ & _ & _ & Hin & Hout & _).
  assert (Hids : row_id <$> getFilteredRowModel Sample.props Sample.fns
            (handleApplyFilters (handleFilterChange "id" (Js.Str "b") initialState))
          = ["b"%string]) by reflexivity.
  rewrite Hids in Hin, Hout. split.
  - apply Hin. left.
  - rewrite Hout; [reflexivity |].
    apply not_elem_of_cons. split; [discriminate | apply not_elem_of_nil].
Defined.

(** ** Row numbers *)

(** On a filtered view with pairwise distinct ids the cell of a row shows
    the row's position in that view, counted from one. *)
Lemma rowNumberCell_filtered (props : DataTableProps) (fns : RowModelFns)
    (st : TableState) (k : nat) (row : Row) :
  NoDup (row_id <$> getCoreRowModel props) →
  getFilteredRowModel props fns st !! k = Some row →
  rowNumberCell props fns st row = Z.of_nat k + 1.
Proof.
  intros Hnd Hk. unfold rowNumberCell.
  by rewrite (findIndex_nodup _ k row (getFilteredRowModel_nodup props fns st Hnd) Hk).
Qed.

Lemma rowNumbers_of_filtered (props : DataTableProps) (fns : RowModelFns)
    (st : TableState) :
  NoDup (row_id <$> getCoreRowModel props) →
  rowNumberCell props fns st <$> getFilteredRowModel props fns st
  = (λ k, Z.of_nat k + 1) <$> seq 0 (length (getFilteredRowModel props fns st)).
Proof.
  intros Hnd. apply list_eq. intros i. rewrite !list_lookup_fmap.
  destruct (getFilteredRowModel props fns st !! i) as [row |] eqn:Hi; simpl.
  - rewrite lookup_seq_lt by (by eapply lookup_lt_Some). simpl.
    by rewrite (rowNumberCell_filtered props fns st i row Hnd Hi).
  - by rewrite lookup_seq_ge by (by apply lookup_ge_None).
Qed.

(** C3: the two-row sample table sorted ascending by the field on which
    the second record of the dataset is the smaller. The filtered rows are
    [a, b] in dataset order and the rendered sequence is [b, a]. One plus
    the index in the rendered sequence would number the rendered rows 1
    and 2; the cells show 2 and 1, the positions in the filtered list. The
    component's own description of the column reads "Shows sequential
    numbers starting from 1". *)
Lemma rowNumber_sorted_counterexample :
  let st := setSorting Sample.byNumber initialState in
  row_id <$> getFilteredRowModel Sample.props Sample.fns st = ["a"; "b"]%string ∧
  row_id <$> getRowModel Sample.props Sample.fns st = ["b"; "a"]%string ∧
  imap (λ index _, Z.of_nat index + 1) (getRowModel Sample.props Sample.fns st)
    = [1; 2] ∧
  renderedRowNumbers Sample.props Sample.fns st = [2; 1] ∧
  renderedRowNumbers Sample.props Sample.fns st ≠ [1; 2].
Proof. vm_compute. repeat split; congruence. Qed.

(** C8, counterexample: a row without [id] at position 0 and a row whose
    [id] is ["0"] receive the same identity; both are numbered 1, so the
    numbers of the two rendered rows are not 1 and 2. *)
Lemma rowNumbers_clashing_ids_counterexample :
  length (getFilteredRowModel Sample.clashingProps Sample.fns initialState) = 2%nat ∧
  row_id <$> getRowModel Sample.clashingProps Sample.fns initialState
    = ["0"; "0"]%string ∧
  renderedRowNumbers Sample.clashingProps Sample.fns initialState = [1; 1].
Proof. vm_compute. repeat split. Qed.

(** C8, amended: on a dataset whose row identities are pairwise distinct,
    after any sequence of actions the numbers shown for the rendered rows
    are the numbers 1 to n, each once, where n is the length of the
    filtered row list, and the rendered rows are exactly the filtered
    rows. *)
Theorem row_numbers_enumerate_filtered_rows (props : DataTableProps)
    (fns : RowModelFns) (st0 : TableState) (actions : list Action) :
  NoDup (row_id <$> getCoreRowModel props) →
  let st := run props fns st0 actions in
  let n := length (getFilteredRowModel props fns st) in
  renderedRowNumbers props fns st ≡ₚ (λ k, Z.of_nat k + 1) <$> seq 0 n ∧
  NoDup (renderedRowNumbers props fns st) ∧
  (∀ z, z ∈ renderedRowNumbers props fns st ↔ 1 ≤ z ≤ Z.of_nat n) ∧
  length (renderedRowNumbers props fns st) = n ∧
  getRowModel props fns st ≡ₚ getFilteredRowModel props fns st.
Proof.
  intros Hnd. simpl. set (st := run props fns st0 actions).
  assert (Hperm : renderedRowNumbers props fns st ≡ₚ
            (λ k, Z.of_nat k + 1) <$> seq 0 (length (getFilteredRowModel props fns st))).
  { unfold renderedRowNumbers. rewrite <- rowNumbers_of_filtered by done.
    apply Permutation_map, getRowModel_Permutation. }
  split_and!.
  - done.
  - rewrite Hperm. apply NoDup_fmap_2; [| apply NoDup_seq].
    intros a b Hab. lia.
  - intros z. rewrite Hperm, list_elem_of_fmap. split.
    + intros (k & -> & Hk%elem_of_seq). lia.
    + intros Hz. exists (Z.to_nat (z - 1)). split; [lia |].
      apply elem_of_seq. lia.
  - by rewrite Hperm, length_fmap, length_seq.
  - apply getRowModel_Permutation.
Qed.

Lemma row_numbers_enumerate_filtered_rows_witness :
  renderedRowNumbers Sample.props Sample.fns
    (run Sample.props Sample.fns initialState [SortingChange Sample.byNumber])
  ≡ₚ [1; 2].
Proof.
  exact (proj1 (row_numbers_enumerate_filtered_rows Sample.props Sample.fns
                  initialState [SortingChange Sample.byNumber] ltac:(compute_done))).
Defined.

(** ** Forced pinning *)

Lemma user_pins_exclude_forced (forced user : list string) (id : string) :
  id ∈ forced →
  id ∉ List.filter (λ id, negb (Js.includes forced id)) user.
Proof.
  intros Hforced [_ Hkeep]%list_elem_of_In%filter_In.
  unfold Js.includes in Hkeep. by rewrite bool_decide_eq_true_2 in Hkeep.
Qed.

Lemma tableColumns_elem (props : DataTableProps) (c : ColumnDef) :
  c ∈ tableColumns props →
  c = selectionColumn ∨ c = rowNumberColumn ∨ c = rowActionsColumn ∨ c ∈ columns props.
Proof.
  unfold tableColumns. rewrite !elem_of_app.
  destruct (selectable props), (hasRowActions props);
    rewrite ?list_elem_of_singleton, ?elem_of_nil; tauto.
Qed.

(** No action hides a synthetic column: they are not hideable, and the
    caller's columns have other ids. *)
Lemma synthetic_columns_stay_visible (props : DataTableProps) (fns : RowModelFns)
    (actions : list Action) (st : TableState) (id : string) :
  id ∈ reservedIds →
  Forall (λ c, col_id c ∉ reservedIds) (columns props) →
  Forall (λ a, match a with
               | ToggleVisibility c _ => c ∈ tableColumns props
               | _ => True
               end) actions →
  columnVisibility st !! id = None →
  columnVisibility (run props fns st actions) !! id = None.
Proof.
  intros Hid Hcols. unfold run. revert st.
  induction actions as [| a actions IH]; intros st Hacts Hst; simpl; [done |].
  apply Forall_cons in Hacts as [Ha Hacts]. apply IH; [done |].
  destruct a; simpl; try done.
  - unfold toggleSelected. by repeat case_match.
  - unfold toggleAllRowsSelected. by repeat case_match.
  - unfold toggleAllPageRowsSelected. by repeat case_match.
  - unfold toggleVisibility. case_match eqn:Hhide; [| done]. simpl.
    apply tableColumns_elem in Ha as [-> | [-> | [-> | Hin]]]; try discriminate.
    rewrite Forall_forall in Hcols. rewrite lookup_insert_ne; [done |].
    intros Heq. apply (Hcols column Hin). by rewrite Heq.
Qed.

(** C4: after any sequence of actions (pin, unpin, unpin-all, hide and
    all the others) the pinning state handed to the table starts, on the
    left, with the selection column and the row-number column in that
    order when selection is enabled, and with the row-number column alone
    when it is not; on the right it starts with the row-actions column
    when row actions are configured. The user's own pins follow, with the
    forced ids removed, so no request displaces or duplicates a forced
    column. When the caller's columns do not reuse the ids of the synthetic
    columns, the rendered left and right blocks start with the same
    columns, whatever has been hidden. *)
Theorem forced_pins_keep_position (props : DataTableProps) (fns : RowModelFns)
    (actions : list Action) :
  let st := run props fns initialState actions in
  let userLeft := default [] (pin_left (columnPinning st)) in
  let userRight := default [] (pin_right (columnPinning st)) in
  (selectable props = true →
   pin_left (statePinning props st)
   = Some ("select" :: "rowNumber"
           :: List.filter (λ id, negb (Js.includes ["select"; "rowNumber"] id)) userLeft)%string) ∧
  (selectable props = false →
   pin_left (statePinning props st)
   = Some ("rowNumber"
           :: List.filter (λ id, negb (Js.includes ["rowNumber"] id)) userLeft)%string) ∧
  (hasRowActions props = true →
   pin_right (statePinning props st)
   = Some ("rowActions"
           :: List.filter (λ id, negb (Js.includes ["rowActions"] id)) userRight)%string) ∧
  (∀ id, id ∈ leftPinnedColumns props →
         id ∉ List.filter (λ id, negb (Js.includes (leftPinnedColumns props) id)) userLeft) ∧
  (∀ id, id ∈ rightPinnedColumns props →
         id ∉ List.filter (λ id, negb (Js.includes (rightPinnedColumns props) id)) userRight) ∧
  (Forall (λ c, col_id c ∉ reservedIds) (columns props) →
   Forall (λ a, match a with
                | ToggleVisibility c _ => c ∈ tableColumns props
                | _ => True
                end) actions →
   (selectable props = true →
    (∃ rest, getLeftVisibleLeafColumns props st
             = selectionColumn :: rowNumberColumn :: rest)
    ∧ (∃ rest, effectiveOrder props st = "select" :: "rowNumber" :: rest)%string) ∧
   (selectable props = false →
    (∃ rest, getLeftVisibleLeafColumns props st = rowNumberColumn :: rest)
    ∧ (∃ rest, effectiveOrder props st = "rowNumber" :: rest)%string) ∧
   (hasRowActions props = true →
    ∃ rest, getRightVisibleLeafColumns props st = rowActionsColumn :: rest)).
Proof.
  simpl. set (st := run props fns initialState actions). split_and!.
  - intros Hs. unfold statePinning, effectiveColumnPinning, leftPinnedColumns.
    by rewrite Hs.
  - intros Hs. unfold statePinning, effectiveColumnPinning, leftPinnedColumns.
    by rewrite Hs.
  - intros Hr. unfold statePinning, effectiveColumnPinning, rightPinnedColumns.
    by rewrite Hr.
  - intros id. apply user_pins_exclude_forced.
  - intros id. apply user_pins_exclude_forced.
  - intros Hcols Hacts.
    assert (Hvis : ∀ id, id ∈ reservedIds → columnVisibility st !! id = None).
    { intros id Hid. by apply synthetic_columns_stay_visible. }
    assert (Hsel : getIsVisible st selectionColumn = true).
    { unfold getIsVisible. simpl. rewrite Hvis; [done | by left]. }
    assert (Hnum : getIsVisible st rowNumberColumn = true).
    { unfold getIsVisible. simpl. rewrite Hvis; [done | by right; left]. }
    assert (Hact : getIsVisible st rowActionsColumn = true).
    { unfold getIsVisible. simpl. rewrite Hvis; [done | by right; right; left]. }
    split_and!.
    + intros Hs.
      assert (Hleft : ∃ rest, getLeftVisibleLeafColumns props st
                              = selectionColumn :: rowNumberColumn :: rest).
      { unfold getLeftVisibleLeafColumns, visibleLeafColumns, statePinning,
          effectiveColumnPinning, leftPinnedColumns, tableColumns.
        rewrite Hs. simpl. rewrite Hsel, Hnum. simpl. eauto. }
      split; [done |].
      destruct Hleft as [rest Hrest]. unfold effectiveOrder. rewrite Hrest.
      simpl. eauto.
    + intros Hs.
      assert (Hleft : ∃ rest, getLeftVisibleLeafColumns props st
                              = rowNumberColumn :: rest).
      { unfold getLeftVisibleLeafColumns, visibleLeafColumns, statePinning,
          effectiveColumnPinning, leftPinnedColumns, tableColumns.
        rewrite Hs. simpl. rewrite Hnum. simpl. eauto. }
      split; [done |].
      destruct Hleft as [rest Hrest]. unfold effectiveOrder. rewrite Hrest.
      simpl. eauto.
    + intros Hr.
      unfold getRightVisibleLeafColumns, visibleLeafColumns, statePinning,
        effectiveColumnPinning, rightPinnedColumns, tableColumns.
      rewrite Hr. destruct (selectable props); simpl;
        rewrite ?Hsel, Hnum, Hact; simpl; eauto.
Qed.

Lemma forced_pins_keep_position_witness :
  ∃ rest,
    effectiveOrder Sample.props
      (run Sample.props Sample.fns initialState
         [PinColumn Sample.emailColumn PinLeft;
          PinColumn Sample.nameColumn PinRight;
          ToggleVisibility Sample.nameColumn false;
          ResetColumnPinning;
          PinColumn Sample.emailColumn PinLeft])
    = ("select" :: "rowNumber" :: rest)%string.
Proof.
  pose proof (forced_pins_keep_position Sample.props Sample.fns
    [PinColumn Sample.emailColumn PinLeft;
     PinColumn Sample.nameColumn PinRight;
     ToggleVisibility Sample.nameColumn false;
     ResetColumnPinning;
     PinColumn Sample.emailColumn PinLeft]) as (_ & _ & _ & _ & _ & Hrendered).
  destruct (Hrendered ltac:(compute_done) ltac:(repeat constructor))
    as (Hleft & _ & _).
  exact (proj2 (Hleft eq_refl)).
Defined.

(** * Further properties of the code *)

(** ** Editing the panel *)

Lemma filter_none {A : Type} (p : A → bool) (l : list A) :
  (∀ x, x ∈ l → p x = false) → List.filter p l = [].
Proof.
  induction l as [| a l IH]; intros Hl; simpl; [done |].
  rewrite (Hl a) by (by left). apply IH. intros x Hx. apply Hl. by right.
Qed.

Lemma filter_all {A : Type} (p : A → bool) (l : list A) :
  (∀ x, x ∈ l → p x = true) → List.filter p l = l.
Proof.
  induction l as [| a l IH]; intros Hl; simpl; [done |].
  rewrite (Hl a) by (by left). f_equal. apply IH. intros x Hx. apply Hl. by right.
Qed.

Lemma filter_twice {A : Type} (p : A → bool) (l : list A) :
  List.filter p (List.filter p l) = List.filter p l.
Proof.
  apply filter_all. by intros x [_ Hp]%list_elem_of_In%filter_In.
Qed.

Lemma object_replace_keys (key : string) (v : Js.value)
    (obj : list (string * Js.value)) :
  (object_replace key v obj).*1 = obj.*1.
Proof.
  induction obj as [| [k w] rest IH]; [done |].
  cbn [object_replace]. destruct (String.eqb k key); rewrite !fmap_cons; cbn [fst];
    [done | by rewrite IH].
Qed.

Lemma object_set_keys_elem (key : string) (v : Js.value)
    (obj : list (string * Js.value)) (k : string) :
  k ∈ (object_set key v obj).*1 ↔ k = key ∨ k ∈ obj.*1.
Proof.
  unfold object_set. case_bool_decide as Hkey.
  - rewrite object_replace_keys. split; [by right | by intros [-> | ?]].
  - rewrite !list_elem_of_fmap. split.
    + intros ([k' w] & -> & [[= -> ->] | Hin]%object_insert_elem); [by left |].
      right. by exists (k', w).
    + intros [-> | ([k' w] & -> & Hin)].
      * exists (key, v). split; [done |]. apply object_insert_elem. by left.
      * exists (k', w). split; [done |]. apply object_insert_elem. by right.
Qed.

Lemma object_insert_keys_NoDup (key : string) (v : Js.value)
    (obj : list (string * Js.value)) :
  key ∉ obj.*1 → NoDup obj.*1 → NoDup (object_insert key v obj).*1.
Proof.
  induction obj as [| [k w] rest IH]; intros Hkey Hnd.
  - apply NoDup_singleton.
  - cbn [object_insert]. destruct (listedBefore key k).
    + rewrite fmap_cons. by apply NoDup_cons.
    + rewrite !fmap_cons in *. cbn [fst] in *.
      apply NoDup_cons in Hnd as [Hfresh Hnd].
      apply not_elem_of_cons in Hkey as [Hne Hkey].
      apply NoDup_cons. split; [| by apply IH].
      intros ([k' w'] & Hk & [[= -> ->] | Hin]%object_insert_elem)%list_elem_of_fmap.
      * by simpl in Hk.
      * apply Hfresh. apply list_elem_of_fmap. by exists (k', w').
Qed.

Lemma object_set_keys_NoDup (key : string) (v : Js.value)
    (obj : list (string * Js.value)) :
  NoDup obj.*1 → NoDup (object_set key v obj).*1.
Proof.
  intros Hnd. unfold object_set. case_bool_decide as Hin.
  - by rewrite object_replace_keys.
  - by apply object_insert_keys_NoDup.
Qed.

Lemma object_insert_other_keys (key : string) (v : Js.value)
    (obj : list (string * Js.value)) :
  List.filter (λ k, negb (String.eqb k key)) (object_insert key v obj).*1
  = List.filter (λ k, negb (String.eqb k key)) obj.*1.
Proof.
  induction obj as [| [k w] rest IH].
  - simpl. by rewrite String.eqb_refl.
  - cbn [object_insert]. destruct (listedBefore key k);
      rewrite !fmap_cons; cbn [fst List.filter].
    + by rewrite String.eqb_refl.
    + by rewrite IH.
Qed.

Lemma listedBefore_asym (a b : string) :
  listedBefore a b = true → listedBefore b a = false.
Proof.
  unfold listedBefore. destruct (arrayIndex a), (arrayIndex b); try done.
  rewrite N.ltb_lt, N.ltb_ge. lia.
Qed.

Lemma listedBefore_through (a b c : string) :
  listedBefore a b = true → listedBefore c b = false → listedBefore a c = true.
Proof.
  unfold listedBefore. destruct (arrayIndex a), (arrayIndex b), (arrayIndex c);
    try done.
  rewrite !N.ltb_lt, N.ltb_ge. lia.
Qed.

Lemma object_insert_keys_ordered (key : string) (v : Js.value)
    (obj : list (string * Js.value)) :
  keysOrdered obj.*1 = true →
  (object_insert key v obj).*1
  = List.filter (λ k, negb (listedBefore key k)) obj.*1
    ++ key :: List.filter (listedBefore key) obj.*1.
Proof.
  induction obj as [| [k w] rest IH]; [done |].
  rewrite fmap_cons. cbn [fst keysOrdered object_insert].
  intros [Hlater Hrest]%andb_true_iff. cbn [List.filter].
  destruct (listedBefore key k) eqn:Hk; cbn [negb].
  - assert (Hall : ∀ r, r ∈ rest.*1 → listedBefore key r = true).
    { intros r Hr. apply (listedBefore_through key k r Hk).
      rewrite forallb_forall in Hlater. apply negb_true_iff, Hlater.
      by apply list_elem_of_In. }
    rewrite filter_none by (intros r Hr; by rewrite (Hall r Hr)).
    by rewrite filter_all by done.
  - rewrite fmap_cons. cbn [fst]. by rewrite (IH Hrest).
Qed.

Lemma object_insert_keysOrdered (key : string) (v : Js.value)
    (obj : list (string * Js.value)) :
  keysOrdered obj.*1 = true → keysOrdered (object_insert key v obj).*1 = true.
Proof.
  induction obj as [| [k w] rest IH]; [done |].
  rewrite fmap_cons. cbn [fst keysOrdered object_insert].
  intros [Hlater Hrest]%andb_true_iff.
  destruct (listedBefore key k) eqn:Hk.
  - rewrite !fmap_cons. cbn [fst keysOrdered]. rewrite Hlater, Hrest.
    cbn [forallb]. rewrite (listedBefore_asym key k Hk). cbn [negb andb].
    rewrite andb_true_r. apply forallb_forall. intros r Hr.
    apply negb_true_iff, listedBefore_asym, (listedBefore_through key k r Hk).
    rewrite forallb_forall in Hlater. by apply negb_true_iff, Hlater.
  - rewrite fmap_cons. cbn [fst keysOrdered]. rewrite (IH Hrest), andb_true_r.
    apply forallb_forall. intros r Hr.
    apply list_elem_of_In, list_elem_of_fmap in Hr
      as ([k' w'] & -> & [[= -> ->] | Hin]%object_insert_elem); cbn [fst].
    + by rewrite Hk.
    + rewrite forallb_forall in Hlater. apply Hlater, list_elem_of_In.
      apply list_elem_of_fmap. by exists (k', w').
Qed.

(** X1: changing one panel value stores it under its column id, keeps the
    value of every other column, keeps one entry per column, and changes
    nothing else of the state: the applied column filters and the search
    term stay as they were until the filters are applied. The keys keep
    their order among themselves and a known key keeps its place. A new
    key goes where JavaScript lists it: last when it is not written like
    an array index; otherwise, in an object whose keys are in JavaScript
    order, after the array indices below it and before every other key.
    Keys in JavaScript order stay in JavaScript order. *)
Theorem handleFilterChange_updates_one_entry (st : TableState)
    (filterId : string) (value : Js.value) :
  NoDup (filterValues st).*1 →
  let keys := (filterValues st).*1 in
  let keys' := (filterValues (handleFilterChange filterId value st)).*1 in
  (filterId, value) ∈ filterValues (handleFilterChange filterId value st) ∧
  (∀ k w, k ≠ filterId →
          ((k, w) ∈ filterValues (handleFilterChange filterId value st)
           ↔ (k, w) ∈ filterValues st)) ∧
  (∀ w, (filterId, w) ∈ filterValues (handleFilterChange filterId value st) →
        w = value) ∧
  NoDup keys' ∧
  (filterId ∈ keys → keys' = keys) ∧
  List.filter (λ k, negb (String.eqb k filterId)) keys'
  = List.filter (λ k, negb (String.eqb k filterId)) keys ∧
  (filterId ∉ keys → arrayIndex filterId = None → keys' = keys ++ [filterId]) ∧
  (filterId ∉ keys → keysOrdered keys = true →
   keys' = List.filter (λ k, negb (listedBefore filterId k)) keys
           ++ filterId :: List.filter (listedBefore filterId) keys) ∧
  (keysOrdered keys = true → keysOrdered keys' = true) ∧
  setFilterValues (filterValues st) (handleFilterChange filterId value st) = st.
Proof.
  intros Hnd. cbv zeta. unfold handleFilterChange.
  cbn [filterValues setFilterValues]. split_and!.
  - apply (object_set_elem _ _ _ _ _ Hnd). by left.
  - intros k w Hk. rewrite (object_set_elem _ _ _ _ _ Hnd). split.
    + by intros [[? _] | [_ ?]].
    + intros Hin. by right.
  - intros w [[_ ?] | [? _]]%(object_set_elem _ _ _ _ _ Hnd); done.
  - by apply object_set_keys_NoDup.
  - intros Hin. unfold object_set. rewrite bool_decide_eq_true_2 by done.
    apply object_replace_keys.
  - unfold object_set. case_bool_decide.
    + by rewrite object_replace_keys.
    + apply object_insert_other_keys.
  - intros Hout Hindex. unfold object_set. rewrite bool_decide_eq_false_2 by done.
    induction (filterValues st) as [| [k w] rest IH]; [done |].
    cbn [object_insert]. unfold listedBefore at 1. rewrite Hindex.
    rewrite !fmap_cons. cbn [fst app]. f_equal. apply IH.
    + rewrite fmap_cons in Hnd. by apply NoDup_cons in Hnd as [_ ?].
    + rewrite fmap_cons in Hout. by apply not_elem_of_cons in Hout as [_ ?].
  - intros Hout Hordered. unfold object_set. rewrite bool_decide_eq_false_2 by done.
    by apply object_insert_keys_ordered.
  - intros Hordered. unfold object_set. case_bool_decide.
    + by rewrite object_replace_keys.
    + by apply object_insert_keysOrdered.
  - by destruct st.
Qed.

Lemma handleFilterChange_updates_one_entry_witness :
  filterValues
    (handleFilterChange "2" (Js.Str "x")
       (handleFilterChange "name" (Js.Str "bo")
          (handleFilterChange "role" (Js.Str "dev")
             (handleFilterChange "name" (Js.Str "b") initialState))))
  = [("2"%string, Js.Str "x"); ("name"%string, Js.Str "bo");
     ("role"%string, Js.Str "dev")] ∧
  NoDup (filterValues
           (handleFilterChange "2" (Js.Str "x")
              (handleFilterChange "name" (Js.Str "bo")
                 (handleFilterChange "role" (Js.Str "dev")
                    (handleFilterChange "name" (Js.Str "b") initialState))))).*1.
Proof.
  split; [reflexivity |].
  refine (proj1 (proj2 (proj2 (proj2
    (handleFilterChange_updates_one_entry
       (handleFilterChange "name" (Js.Str "bo")
          (handleFilterChange "role" (Js.Str "dev")
             (handleFilterChange "name" (Js.Str "b") initialState)))
       "2" (Js.Str "x") _))))).
  compute_done.
Defined.

(** ** Applying and clearing in sequence *)

Lemma appliedFilters_ids_sublist (values : list (string * Js.value)) :
  filter_id <$> appliedFilters values `sublist_of` values.*1.
Proof.
  unfold appliedFilters. induction values as [| [k v] rest IH]; simpl; [done |].
  destruct (filterEntryActive v); simpl.
  - by apply sublist_skip.
  - by apply sublist_cons.
Qed.

(** X2: the applied filters name their columns in the order of the panel
    and are never more than the panel entries; applying twice is the same
    as applying once; clearing also empties the panel, so applying right
    after a clear applies nothing, and a clear after an apply is just the
    clear. *)
Theorem apply_and_clear_compose (st : TableState) :
  filter_id <$> columnFilters (handleApplyFilters st)
    `sublist_of` (filterValues st).*1 ∧
  (length (columnFilters (handleApplyFilters st)) ≤ length (filterValues st))%nat ∧
  handleApplyFilters (handleApplyFilters st) = handleApplyFilters st ∧
  handleApplyFilters (handleClearFilters st) = handleClearFilters st ∧
  handleClearFilters (handleApplyFilters st) = handleClearFilters st ∧
  handleClearFilters (handleClearFilters st) = handleClearFilters st.
Proof.
  split_and!; try reflexivity.
  - apply appliedFilters_ids_sublist.
  - pose proof (sublist_length _ _ (appliedFilters_ids_sublist (filterValues st))) as H.
    by rewrite !length_fmap in H.
Qed.

(** ** Filters reached through the panel *)

Lemma filterConfigs_elem (columns : list ColumnDef) (id : string) :
  id ∈ config_id <$> filterConfigs columns ↔
  ∃ col, col ∈ columns ∧ col_id col = id ∧ id ≠ ""%string
         ∧ enableColumnFilter col ≠ Some false.
Proof.
  unfold filterConfigs. rewrite list_elem_of_fmap. split.
  - intros (c & -> & Hc). apply list_elem_of_In, in_map_iff in Hc
      as (col & <- & Hcol). apply filter_In in Hcol as [Hin Hkeep].
    apply andb_true_iff in Hkeep as [Hid Hflag]. exists col. simpl.
    split_and!; [by apply list_elem_of_In | done | |].
    + intros Heq. rewrite Heq in Hid. discriminate.
    + intros Heq. by rewrite bool_decide_eq_true_2 in Hflag.
  - intros (col & Hin & <- & Hid & Hflag).
    exists {| config_id := col_id col;
              config_label := default (col_id col) (header col);
              config_type := TextFilter |}.
    split; [done |]. apply list_elem_of_In, in_map_iff. exists col.
    split; [done |]. apply filter_In. split; [by apply list_elem_of_In |].
    apply andb_true_iff. split.
    + apply negb_true_iff, String.eqb_neq. done.
    + by rewrite bool_decide_eq_false_2.
Qed.

Lemma panelConsistent_step (props : DataTableProps) (fns : RowModelFns)
    (columns : list ColumnDef) (st : TableState) (a : Action) :
  isPanelEdit columns a →
  panelConsistent columns st →
  panelConsistent columns (dispatch props fns st a).
Proof.
  intros Ha (Hkeys & Hpanel & Hids & Hfilters).
  destruct a; simpl in *;
    try (by unfold panelConsistent);
    try (unfold toggleSelected, toggleAllRowsSelected, toggleAllPageRowsSelected,
           toggleVisibility; repeat case_match; by unfold panelConsistent).
  - destruct Ha as [Hid [s ->]]. unfold panelConsistent, handleFilterChange. simpl.
    split_and!.
    + by apply object_set_keys_NoDup.
    + intros k v [[-> ->] | [_ Hin]]%(object_set_elem _ _ _ _ _ Hkeys).
      * split; [done | by exists s].
      * by apply Hpanel.
    + done.
    + intros f Hf. destruct (Hfilters f Hf) as [Hin Hs]. split; [| done].
      apply object_set_keys_elem. by right.
  - unfold panelConsistent, handleApplyFilters. simpl. split_and!; [done | done | |].
    + apply (sublist_NoDup _ (filterValues st).*1);
        [done | apply appliedFilters_ids_sublist].
    + intros f [Hin Hact]%appliedFilters_elem. split.
      * apply list_elem_of_fmap. by exists (filter_id f, filter_value f).
      * destruct (Hpanel _ _ Hin) as [_ [s Hs]]. exists s. split; [done |].
        rewrite Hs, filterEntryActive_text in Hact. by apply negb_true_iff.
  - unfold panelConsistent, handleClearFilters. simpl.
    split_and!; [apply NoDup_nil_2 | | apply NoDup_nil_2 |].
    + by intros k v Hin%elem_of_nil.
    + by intros f Hin%elem_of_nil.
Qed.

(** X3: whatever the user does, as long as the panel values are edited
    through the inputs of the configured filters, every applied column
    filter belongs to a column that has an id and has not switched
    filtering off, holds a text with a character other than white space,
    and no column has two applied filters. *)
Theorem applied_filters_come_from_the_panel (props : DataTableProps)
    (fns : RowModelFns) (actions : list Action) :
  Forall (isPanelEdit (columns props)) actions →
  let st := run props fns initialState actions in
  NoDup (filter_id <$> columnFilters st) ∧
  (∀ f, f ∈ columnFilters st →
        (∃ col, col ∈ columns props ∧ col_id col = filter_id f
                ∧ filter_id f ≠ ""%string ∧ enableColumnFilter col ≠ Some false)
        ∧ ∃ s, filter_value f = Js.Str s ∧ Js.blank s = false).
Proof.
  intros Hacts. simpl.
  assert (Hinv : panelConsistent (columns props) (run props fns initialState actions)).
  { unfold run.
    assert (Hinit : panelConsistent (columns props) initialState).
    { unfold panelConsistent. simpl.
      split_and!; [apply NoDup_nil_2 | | apply NoDup_nil_2 |].
      - by intros k v Hin%elem_of_nil.
      - by intros f Hin%elem_of_nil. }
    revert Hinit. generalize initialState.
    induction Hacts as [| a actions Ha Hacts IH]; intros st Hst; simpl; [done |].
    apply IH. by apply panelConsistent_step. }
  destruct Hinv as (_ & Hpanel & Hids & Hfilters). split; [done |].
  intros f Hf. destruct (Hfilters f Hf) as [Hkey Hs]. split; [| done].
  apply list_elem_of_fmap in Hkey as ([k v] & -> & Hin).
  apply filterConfigs_elem. by apply (Hpanel k v).
Qed.

Lemma applied_filters_come_from_the_panel_witness :
  NoDup (filter_id <$> columnFilters
           (run Sample.props Sample.fns initialState
              [FilterChange "name" (Js.Str "ann"); ApplyFilters;
               FilterChange "name" (Js.Str " "); SortingChange Sample.byNumber;
               ApplyFilters])).
Proof.
  refine (proj1 (applied_filters_come_from_the_panel Sample.props Sample.fns
                   [FilterChange "name" (Js.Str "ann"); ApplyFilters;
                    FilterChange "name" (Js.Str " "); SortingChange Sample.byNumber;
                    ApplyFilters] _)).
  repeat constructor; eauto.
Defined.

(** ** The multi-select *)

Lemma bool_filter_sublist {A : Type} (p : A → bool) (l : list A) :
  List.filter p l `sublist_of` l.
Proof.
  induction l as [| a l IH]; simpl; [done |].
  destruct (p a); [by apply sublist_skip | by apply sublist_cons].
Qed.

Lemma filter_copies_length (x : string) (value : list string) :
  (length (List.filter (λ v, negb (String.eqb v x)) value)
   + length (List.filter (λ v, String.eqb v x) value) = length value)%nat.
Proof.
  induction value as [| a l IH]; simpl; [done |].
  destruct (String.eqb a x); simpl; lia.
Qed.

Lemma filter_out_elem (x y : string) (value : list string) :
  y ∈ List.filter (λ v, negb (String.eqb v x)) value ↔ y ≠ x ∧ y ∈ value.
Proof.
  rewrite !list_elem_of_In, filter_In, negb_true_iff, String.eqb_neq. tauto.
Qed.

Lemma filter_out_absent (x : string) (value : list string) :
  x ∉ value → List.filter (λ v, negb (String.eqb v x)) value = value.
Proof.
  induction value as [| a l IH]; simpl; [done |].
  intros [Hne Hl]%not_elem_of_cons.
  destruct (String.eqb_spec a x) as [-> | _]; [done |]. simpl. by rewrite IH.
Qed.

Lemma filter_out_readd (x : string) (value : list string) :
  NoDup value → x ∈ value →
  List.filter (λ v, negb (String.eqb v x)) value ++ [x] ≡ₚ value.
Proof.
  induction value as [| a l IH]; simpl.
  - by intros _ Hin%elem_of_nil.
  - intros [Hfresh Hnd]%NoDup_cons Hin.
    destruct (String.eqb_spec a x) as [-> | Hne]; simpl.
    + rewrite filter_out_absent by done. by rewrite Permutation_app_comm.
    + apply elem_of_cons in Hin as [-> | Hin]; [done |].
      by rewrite (IH Hnd Hin).
Qed.

(** X4: choosing an option of the multi-select flips its membership in the
    selection and leaves every other value as it was; a selection without
    repeats stays without repeats. Choosing the same option twice gives the
    selection back, in the same order, when the option was not selected.
    When it was selected, the two choices remove every copy of the option
    and put one copy last: that is the selection up to order when the
    selection has no repeats, and a selection shorter by the number of
    extra copies when the option was repeated in it. The selection becomes
    empty exactly when it held nothing but that option. *)
Theorem handleSelect_toggles (x : string) (value : list string) :
  (∀ y, y ∈ MultiSelect.handleSelect x value ↔
        (y ≠ x ∧ y ∈ value) ∨ (y = x ∧ x ∉ value)) ∧
  (NoDup value → NoDup (MultiSelect.handleSelect x value)) ∧
  (x ∉ value →
   MultiSelect.handleSelect x (MultiSelect.handleSelect x value) = value) ∧
  (x ∈ value →
   MultiSelect.handleSelect x (MultiSelect.handleSelect x value)
   = List.filter (λ v, negb (String.eqb v x)) value ++ [x]) ∧
  (x ∈ value → NoDup value →
   MultiSelect.handleSelect x (MultiSelect.handleSelect x value) ≡ₚ value) ∧
  (x ∈ value →
   (length (MultiSelect.handleSelect x (MultiSelect.handleSelect x value))
    + length (List.filter (λ v, String.eqb v x) value)
    = length value + 1)%nat) ∧
  (MultiSelect.handleSelect x value = [] ↔
   value ≠ [] ∧ ∀ y, y ∈ value → y = x).
Proof.
  unfold MultiSelect.handleSelect, Js.includes. split_and!.
  - intros y. case_bool_decide as Hin.
    + rewrite filter_out_elem. tauto.
    + rewrite elem_of_app, list_elem_of_singleton. split.
      * intros [Hy | ->]; [left | right]; [split |]; [congruence | done | done].
      * intros [[_ Hy] | [-> _]]; [by left | by right].
  - intros Hnd. case_bool_decide as Hin.
    + apply (sublist_NoDup _ value); [done | apply bool_filter_sublist].
    + apply NoDup_app. split_and!; [done | | apply NoDup_singleton].
      by intros y Hy ->%list_elem_of_singleton.
  - intros Hout. rewrite (bool_decide_eq_false_2 (x ∈ value)) by done.
    rewrite bool_decide_eq_true_2 by (apply elem_of_app; right; by left).
    rewrite List.filter_app. simpl. rewrite String.eqb_refl. simpl.
    by rewrite app_nil_r, filter_out_absent.
  - intros Hin. rewrite (bool_decide_eq_true_2 (x ∈ value)) by done.
    rewrite bool_decide_eq_false_2; [done |].
    rewrite filter_out_elem. tauto.
  - intros Hin Hnd. rewrite (bool_decide_eq_true_2 (x ∈ value)) by done.
    rewrite bool_decide_eq_false_2.
    + by apply filter_out_readd.
    + rewrite filter_out_elem. tauto.
  - intros Hin. rewrite (bool_decide_eq_true_2 (x ∈ value)) by done.
    rewrite bool_decide_eq_false_2 by (rewrite filter_out_elem; tauto).
    rewrite length_app. simpl. pose proof (filter_copies_length x value). lia.
  - case_bool_decide as Hin.
    + split.
      * intros Hnil. split; [by intros -> ; apply elem_of_nil in Hin |].
        intros y Hy. destruct (decide (y = x)) as [| Hne]; [done |].
        assert (Hy' : y ∈ List.filter (λ v, negb (String.eqb v x)) value)
          by (by apply filter_out_elem).
        rewrite Hnil in Hy'. by apply elem_of_nil in Hy'.
      * intros [_ Hall].
        destruct (List.filter (λ v, negb (String.eqb v x)) value) as [| y l] eqn:Hf;
          [done |].
        assert (Hy : y ∈ List.filter (λ v, negb (String.eqb v x)) value)
          by (rewrite Hf; by left).
        apply filter_out_elem in Hy as [Hne Hy]. by specialize (Hall y Hy).
    + split.
      * intros Happ. by destruct value.
      * intros [Hne Hall]. destruct value as [| a l]; [done |].
        exfalso. apply Hin. rewrite <- (Hall a) by (by left). by left.
Qed.

Lemma handleSelect_toggles_witness :
  MultiSelect.handleSelect "design"
    (MultiSelect.handleSelect "design" ["engineering"; "data"])
  = ["engineering"; "data"]%string.
Proof.
  apply (proj1 (proj2 (proj2 (handleSelect_toggles "design" ["engineering"; "data"])))).
  compute_done.
Defined.

Lemma selectedItems_elem (options : list MultiSelect.FilterOption)
    (value : list string) (o : MultiSelect.FilterOption) :
  o ∈ MultiSelect.selectedItems options value ↔
  o ∈ options ∧ MultiSelect.option_value o ∈ value.
Proof.
  unfold MultiSelect.selectedItems, Js.includes.
  by rewrite !list_elem_of_In, filter_In, bool_decide_eq_true, list_elem_of_In.
Qed.

Lemma multiselect_isActive (value : list string) :
  AdvancedFilter.isActive (Some (MultiSelect.filterValue value)) = true ↔ value ≠ [].
Proof.
  unfold AdvancedFilter.isActive, MultiSelect.filterValue. simpl.
  rewrite !orb_false_r, bool_decide_eq_true.
  destruct value; simpl; split; (done || lia).
Qed.

(** X5: the badges of the multi-select are the options whose value is in
    the selection, in option order. Select-all selects every option and
    clear-all none; a cleared selection is an inactive filter. A selection
    whose values match no option shows no badge and the placeholder, yet,
    when it is not empty, it still counts as an active filter. *)
Theorem selectedItems_follow_the_options (options : list MultiSelect.FilterOption)
    (value : list string) (placeholder : string) :
  (∀ o, o ∈ MultiSelect.selectedItems options value ↔
        o ∈ options ∧ MultiSelect.option_value o ∈ value) ∧
  MultiSelect.selectedItems options value `sublist_of` options ∧
  MultiSelect.selectedItems options (MultiSelect.selectAll options) = options ∧
  MultiSelect.selectedItems options MultiSelect.clearAll = [] ∧
  AdvancedFilter.isActive (Some (MultiSelect.filterValue MultiSelect.clearAll)) = false ∧
  ((∀ o, o ∈ options → MultiSelect.option_value o ∉ value) →
   MultiSelect.selectedItems options value = []
   ∧ MultiSelect.triggerText options value placeholder = placeholder
   ∧ (value ≠ [] →
      AdvancedFilter.isActive (Some (MultiSelect.filterValue value)) = true)).
Proof.
  split_and!.
  - intros o. apply selectedItems_elem.
  - apply bool_filter_sublist.
  - unfold MultiSelect.selectedItems, MultiSelect.selectAll, Js.includes.
    assert (Hall : ∀ l : list MultiSelect.FilterOption,
              (∀ o, o ∈ l → o ∈ options) →
              List.filter (λ option, bool_decide
                 (MultiSelect.option_value option
                    ∈ List.map MultiSelect.option_value options)) l = l).
    { induction l as [| o l IH]; intros Hl; simpl; [done |].
      rewrite bool_decide_eq_true_2.
      - rewrite IH; [done |]. intros o' Ho'. apply Hl. by right.
      - apply list_elem_of_fmap. exists o. split; [done |]. apply Hl. by left. }
    by apply Hall.
  - unfold MultiSelect.selectedItems, MultiSelect.clearAll, Js.includes.
    induction options as [| o l IH]; simpl; done.
  - reflexivity.
  - intros Hstale.
    assert (Hnone : MultiSelect.selectedItems options value = []).
    { destruct (MultiSelect.selectedItems options value) as [| o l] eqn:Hs; [done |].
      assert (Ho : o ∈ MultiSelect.selectedItems options value) by (rewrite Hs; by left).
      apply selectedItems_elem in Ho as [Ho Hv]. by destruct (Hstale o Ho). }
    split_and!; [done | | apply multiselect_isActive].
    unfold MultiSelect.triggerText. by rewrite Hnone.
Qed.

Lemma selectedItems_follow_the_options_witness :
  MultiSelect.selectedItems
    [ {| MultiSelect.option_value := "design"; MultiSelect.option_label := "Design" |} ]
    ["legal"%string] = [] ∧
  AdvancedFilter.isActive (Some (MultiSelect.filterValue ["legal"%string])) = true.
Proof.
  destruct (proj2 (proj2 (proj2 (proj2 (proj2
    (selectedItems_follow_the_options
       [ {| MultiSelect.option_value := "design"; MultiSelect.option_label := "Design" |} ]
       ["legal"%string] "Select")))))
    ltac:(intros o ->%list_elem_of_singleton; compute_done))
    as (Hnone & _ & Hactive).
  split; [exact Hnone | apply Hactive; discriminate].
Defined.

(** ** The indicator of the advanced panel *)

Lemma hasActiveFilters_spec (localValues : gmap string AdvancedFilter.FilterValue) :
  AdvancedFilter.hasActiveFilters localValues = true ↔
  ∃ key value, localValues !! key = Some value
               ∧ AdvancedFilter.isActive (Some value) = true.
Proof.
  unfold AdvancedFilter.hasActiveFilters, AdvancedFilter.keys.
  rewrite existsb_exists. split.
  - intros (key & Hin & Hact). apply list_elem_of_In, list_elem_of_fmap in Hin
      as ([k value] & -> & Hin). apply elem_of_map_to_list in Hin.
    exists k, value. simpl in Hact. rewrite Hin in Hact. by split.
  - intros (key & value & Hlook & Hact). exists key. split.
    + apply list_elem_of_In, list_elem_of_fmap. exists (key, value).
      split; [done |]. by apply elem_of_map_to_list.
    + by rewrite Hlook.
Qed.

Lemma existsb_filter_length {A : Type} (p : A → bool) (l : list A) :
  existsb p l = true ↔ (0 < length (List.filter p l))%nat.
Proof.
  induction l as [| a l IH]; simpl; [split; [done | lia] |].
  destruct (p a); simpl; [split; [lia | done] | done].
Qed.

(** X6: the advanced panel reports active filters exactly when its counter
    is positive; the counter never exceeds the number of entries; an empty
    panel reports none. The plural ending of the line follows the number of
    entries, not the counter: with one active filter among several entries
    the line reads "1 active filters". *)
Theorem active_indicator_matches_count
    (localValues : gmap string AdvancedFilter.FilterValue) :
  (AdvancedFilter.hasActiveFilters localValues = true ↔
   (0 < AdvancedFilter.activeFilterCount localValues)%nat) ∧
  (AdvancedFilter.activeFilterCount localValues ≤ size localValues)%nat ∧
  AdvancedFilter.hasActiveFilters ∅ = false ∧
  (activeFilterLabel localValues = None ↔
   AdvancedFilter.activeFilterCount localValues = 0%nat) ∧
  (AdvancedFilter.activeFilterCount localValues = 1%nat →
   (activeFilterLabel localValues = Some "1 active filter"%string
    ↔ size localValues = 1%nat)
   ∧ (activeFilterLabel localValues = Some "1 active filters"%string
      ↔ size localValues ≠ 1%nat)).
Proof.
  assert (Hkeys : length (AdvancedFilter.keys localValues) = size localValues).
  { unfold AdvancedFilter.keys. by rewrite length_fmap, length_map_to_list. }
  assert (Hhas : AdvancedFilter.hasActiveFilters localValues = true ↔
                 (0 < AdvancedFilter.activeFilterCount localValues)%nat).
  { apply existsb_filter_length. }
  split_and!.
  - done.
  - unfold AdvancedFilter.activeFilterCount. rewrite <- Hkeys.
    apply sublist_length, bool_filter_sublist.
  - reflexivity.
  - unfold activeFilterLabel.
    destruct (AdvancedFilter.hasActiveFilters localValues) eqn:Hb.
    + split; [done |]. intros Hzero.
      assert (0 < AdvancedFilter.activeFilterCount localValues)%nat by (by apply Hhas).
      lia.
    + split; [| done]. intros _.
      destruct (AdvancedFilter.activeFilterCount localValues) eqn:Hc; [done |].
      assert (false = true) by (apply Hhas; lia). done.
  - intros Hone. unfold activeFilterLabel.
    assert (Hb : AdvancedFilter.hasActiveFilters localValues = true)
      by (apply Hhas; lia).
    rewrite Hb, Hone, Hkeys. case_bool_decide as Hsize; simpl.
    + split; split; (done || discriminate).
    + split; split; (done || discriminate).
Qed.

Lemma active_indicator_matches_count_witness :
  activeFilterLabel
    {[ "name"%string := MultiSelect.filterValue [];
       "team"%string := MultiSelect.filterValue ["design"%string] ]}
  = Some "1 active filters"%string.
Proof.
  refine (proj2 (proj2 (proj2 (proj2 (proj2 (proj2
            (active_indicator_matches_count _)))) _)) _);
    vm_compute; [reflexivity | discriminate].
Defined.

(** ** Editing the advanced panel *)

Lemma filter_length_Permutation {A : Type} (p : A → bool) (l1 l2 : list A) :
  l1 ≡ₚ l2 → length (List.filter p l1) = length (List.filter p l2).
Proof.
  induction 1 as [| x l1 l2 _ IH | x y l | l1 l2 l3 _ IH1 _ IH2]; simpl.
  - done.
  - destruct (p x); simpl; by rewrite IH.
  - by destruct (p x), (p y).
  - by rewrite IH1.
Qed.

Lemma keys_insert (configId : string) (newValue : AdvancedFilter.FilterValue)
    (localValues : gmap string AdvancedFilter.FilterValue) :
  AdvancedFilter.keys (<[configId := newValue]> localValues)
  ≡ₚ configId :: AdvancedFilter.keys (delete configId localValues).
Proof.
  unfold AdvancedFilter.keys. rewrite <- insert_delete_eq.
  rewrite map_to_list_insert by apply lookup_delete_eq. by rewrite fmap_cons.
Qed.

Lemma activeFilterCount_insert (configId : string)
    (newValue : AdvancedFilter.FilterValue)
    (localValues : gmap string AdvancedFilter.FilterValue) :
  AdvancedFilter.activeFilterCount (<[configId := newValue]> localValues)
  = ((if AdvancedFilter.isActive (Some newValue) then 1 else 0)
     + AdvancedFilter.activeFilterCount (delete configId localValues))%nat.
Proof.
  unfold AdvancedFilter.activeFilterCount.
  rewrite (filter_length_Permutation _ _ _ (keys_insert configId newValue localValues)).
  cbn [List.filter]. rewrite lookup_insert_eq.
  assert (Hrest :
    List.filter (λ key, AdvancedFilter.isActive
                          (<[configId := newValue]> localValues !! key))
      (AdvancedFilter.keys (delete configId localValues))
    = List.filter (λ key, AdvancedFilter.isActive (delete configId localValues !! key))
        (AdvancedFilter.keys (delete configId localValues))).
  { apply filter_ext_in. intros key Hin. unfold AdvancedFilter.keys in Hin.
    apply list_elem_of_In, list_elem_of_fmap in Hin as ([k w] & -> & Hin).
    apply elem_of_map_to_list in Hin. simpl.
    destruct (decide (k = configId)) as [-> | Hne].
    - by rewrite lookup_delete_eq in Hin.
    - by rewrite lookup_insert_ne, lookup_delete_ne. }
  rewrite Hrest. by destruct (AdvancedFilter.isActive (Some newValue)).
Qed.

(** X7: an input of the advanced panel changes the counter of active
    filters through its own entry only: the counter after the change is the
    counter over the other entries, plus one when the new value is active;
    the counter before it is the same sum with the old value of the entry.
    So one change moves the counter by at most one, and the indicator after
    the change is on exactly when the new value is active or another entry
    is. *)
Theorem onChange_moves_the_counter_by_one_entry (configId : string)
    (newValue : AdvancedFilter.FilterValue)
    (localValues : gmap string AdvancedFilter.FilterValue) :
  let others := delete configId localValues in
  let after := AdvancedFilter.onChange configId newValue localValues in
  AdvancedFilter.activeFilterCount after
  = ((if AdvancedFilter.isActive (Some newValue) then 1 else 0)
     + AdvancedFilter.activeFilterCount others)%nat ∧
  AdvancedFilter.activeFilterCount localValues
  = ((if AdvancedFilter.isActive (localValues !! configId) then 1 else 0)
     + AdvancedFilter.activeFilterCount others)%nat ∧
  (AdvancedFilter.activeFilterCount after
   ≤ S (AdvancedFilter.activeFilterCount localValues))%nat ∧
  (AdvancedFilter.activeFilterCount localValues
   ≤ S (AdvancedFilter.activeFilterCount after))%nat ∧
  AdvancedFilter.hasActiveFilters after
  = AdvancedFilter.isActive (Some newValue) || AdvancedFilter.hasActiveFilters others ∧
  (∀ key, key ≠ configId → after !! key = localValues !! key) ∧
  after !! configId = Some newValue.
Proof.
  cbv zeta. unfold AdvancedFilter.onChange.
  pose proof (activeFilterCount_insert configId newValue localValues) as Hafter.
  assert (Hbefore : AdvancedFilter.activeFilterCount localValues
    = ((if AdvancedFilter.isActive (localValues !! configId) then 1 else 0)
       + AdvancedFilter.activeFilterCount (delete configId localValues))%nat).
  { destruct (localValues !! configId) as [old |] eqn:Hold.
    - rewrite <- (insert_id localValues configId old Hold) at 1.
      apply activeFilterCount_insert.
    - by rewrite delete_id. }
  split_and!.
  - done.
  - done.
  - rewrite Hafter, Hbefore. repeat case_match; lia.
  - rewrite Hafter, Hbefore. repeat case_match; lia.
  - apply eq_true_iff_eq. rewrite orb_true_iff.
    unfold AdvancedFilter.hasActiveFilters at 1 2.
    rewrite !existsb_filter_length.
    fold (AdvancedFilter.activeFilterCount (<[configId := newValue]> localValues)).
    fold (AdvancedFilter.activeFilterCount (delete configId localValues)).
    rewrite Hafter. destruct (AdvancedFilter.isActive (Some newValue)).
    + split; [intros _; by left | lia].
    + split; [intros ?; by right | intros [? | ?]; [done | lia]].
  - intros key Hne. by rewrite lookup_insert_ne.
  - apply lookup_insert_eq.
Qed.

(** ** The pinning override *)

(** One side of the override: the forced ids, then the user's ids that are
    not forced. *)
Lemma override_side_twice (forced user : list string) :
  forced ++ List.filter (λ id, negb (Js.includes forced id))
              (forced ++ List.filter (λ id, negb (Js.includes forced id)) user)
  = forced ++ List.filter (λ id, negb (Js.includes forced id)) user.
Proof.
  f_equal. rewrite List.filter_app, filter_twice.
  rewrite (filter_none _ forced); [done |].
  intros x Hx. unfold Js.includes. by rewrite bool_decide_eq_true_2.
Qed.

Lemma override_side_NoDup (forced user : list string) :
  NoDup forced → NoDup user →
  NoDup (forced ++ List.filter (λ id, negb (Js.includes forced id)) user).
Proof.
  intros Hforced Huser. apply NoDup_app. split_and!.
  - done.
  - intros id Hid Hin. by apply (user_pins_exclude_forced forced user id).
  - apply (sublist_NoDup _ user); [done | apply bool_filter_sublist].
Qed.

(** X8: the pinning override is idempotent: handing its own result back to
    it changes nothing, so the forced columns are never doubled. Every id
    the user pinned to a side is on that side of the result, forced ids are
    there whether the user pinned them or not, and nothing else is. When
    the user's two lists have no repeated id, neither have the lists of the
    result. *)
Theorem effectiveColumnPinning_idempotent (props : DataTableProps)
    (columnPinning : ColumnPinningState) :
  let user_left := default [] (pin_left columnPinning) in
  let user_right := default [] (pin_right columnPinning) in
  let result := effectiveColumnPinning props columnPinning in
  effectiveColumnPinning props result = result ∧
  (∀ id, id ∈ default [] (pin_left result)
         ↔ id ∈ leftPinnedColumns props ∨ id ∈ user_left) ∧
  (∀ id, id ∈ default [] (pin_right result)
         ↔ id ∈ rightPinnedColumns props ∨ id ∈ user_right) ∧
  (NoDup user_left → NoDup (default [] (pin_left result))) ∧
  (NoDup user_right → NoDup (default [] (pin_right result))).
Proof.
  cbv zeta. unfold effectiveColumnPinning. cbn [pin_left pin_right from_option id].
  assert (Hmem : ∀ (forced user : list string) id,
    id ∈ forced ++ List.filter (λ id, negb (Js.includes forced id)) user
    ↔ id ∈ forced ∨ id ∈ user).
  { intros forced user id. rewrite elem_of_app. unfold Js.includes. split.
    - intros [? | [Hu _]%list_elem_of_In%filter_In];
        [by left | right; by apply list_elem_of_In].
    - intros [? | Hu]; [by left |].
      destruct (decide (id ∈ forced)) as [? | Hnot]; [by left |].
      right. apply list_elem_of_In, filter_In.
      split; [by apply list_elem_of_In |]. by rewrite bool_decide_eq_false_2. }
  split_and!.
  - by rewrite !override_side_twice.
  - intros id. apply Hmem.
  - intros id. apply Hmem.
  - apply override_side_NoDup. unfold leftPinnedColumns.
    destruct (selectable props); compute_done.
  - apply override_side_NoDup. unfold rightPinnedColumns.
    destruct (hasRowActions props); compute_done.
Qed.

Lemma effectiveColumnPinning_idempotent_witness :
  NoDup (default [] (pin_left
    (effectiveColumnPinning Sample.props
       {| pin_left := Some ["name"; "rowNumber"; "email"]%string;
          pin_right := None |}))).
Proof.
  refine (proj1 (proj2 (proj2 (proj2
    (effectiveColumnPinning_idempotent Sample.props
       {| pin_left := Some ["name"; "rowNumber"; "email"]%string;
          pin_right := None |})))) _).
  compute_done.
Defined.

(** X9: the override of the variant without row actions, written with
    comparisons against the two ids, gives the same left side as the
    override written with the list of forced columns. The right sides hold
    the same ids when no row actions are configured: the earlier variant
    then passes the user's right side on as it is (possibly absent), the
    later one a copy of it. *)
Theorem leftOnlyColumnPinning_agrees (props : DataTableProps)
    (columnPinning : ColumnPinningState) :
  pin_left (leftOnlyColumnPinning (selectable props) columnPinning)
  = pin_left (effectiveColumnPinning props columnPinning) ∧
  pin_right (leftOnlyColumnPinning (selectable props) columnPinning)
  = pin_right columnPinning ∧
  (hasRowActions props = false →
   default [] (pin_right (leftOnlyColumnPinning (selectable props) columnPinning))
   = default [] (pin_right (effectiveColumnPinning props columnPinning))).
Proof.
  unfold leftOnlyColumnPinning, effectiveColumnPinning, leftPinnedColumns,
    rightPinnedColumns.
  split_and!.
  - destruct (selectable props); cbn [pin_left app]; do 2 f_equal;
      [f_equal |]; apply filter_ext; intros id; unfold Js.includes.
    + destruct (String.eqb_spec id "select") as [-> | Hs]; [done |].
      destruct (String.eqb_spec id "rowNumber") as [-> | Hr]; [done |].
      rewrite bool_decide_eq_false_2; [done |].
      by intros [? | [? | ?%elem_of_nil]%elem_of_cons]%elem_of_cons.
    + destruct (String.eqb_spec id "rowNumber") as [-> | Hr]; [done |].
      rewrite bool_decide_eq_false_2; [done |].
      by intros [? | ?%elem_of_nil]%elem_of_cons.
  - by destruct (selectable props).
  - intros ->. cbn [pin_right app from_option id].
    rewrite (filter_all _ (default [] (pin_right columnPinning)));
      [by destruct (selectable props) |].
    intros id _. unfold Js.includes.
    by rewrite bool_decide_eq_false_2 by apply not_elem_of_nil.
Qed.

Lemma leftOnlyColumnPinning_agrees_witness :
  default [] (pin_right (leftOnlyColumnPinning true
    {| pin_left := None; pin_right := Some ["email"%string] |}))
  = default [] (pin_right (effectiveColumnPinning Sample.clashingProps
    {| pin_left := None; pin_right := Some ["email"%string] |})).
Proof.
  exact (proj2 (proj2 (leftOnlyColumnPinning_agrees Sample.clashingProps
    {| pin_left := None; pin_right := Some ["email"%string] |})) eq_refl).
Defined.

(** ** The columns handed to the table *)

(** X10: the columns of the table are the synthetic columns that are
    switched on, followed by the caller's columns unchanged. The ids of the
    synthetic columns present are exactly the forced left pins followed by
    the forced right pins, so every forced pin names a column that exists.
    Each synthetic column can be neither sorted, hidden nor resized, and
    the auto-fit formula gives it its own fixed width whatever was
    measured. When the caller's ids are distinct and avoid the three
    reserved ids, all ids of the table are distinct. *)
Theorem tableColumns_structure (props : DataTableProps) :
  ∃ extraColumns,
    tableColumns props = extraColumns ++ columns props ∧
    col_id <$> extraColumns = leftPinnedColumns props ++ rightPinnedColumns props ∧
    Forall (λ c, enableSorting c = Some false ∧ enableHiding c = Some false
                 ∧ enableResizing c = Some false
                 ∧ ∀ m w, Some (finalWidth m c w) = defSize c) extraColumns ∧
    (Forall (λ c, col_id c ∉ reservedIds) (columns props) →
     NoDup (col_id <$> columns props) →
     NoDup (col_id <$> tableColumns props)).
Proof.
  exists ((if selectable props then [selectionColumn] else [])
          ++ [rowNumberColumn]
          ++ (if hasRowActions props then [rowActionsColumn] else [])).
  assert (Hfixed : ∀ c, c = selectionColumn ∨ c = rowNumberColumn ∨ c = rowActionsColumn →
            enableSorting c = Some false ∧ enableHiding c = Some false
            ∧ enableResizing c = Some false
            ∧ ∀ m w, Some (finalWidth m c w) = defSize c).
  { intros c [-> | [-> | ->]]; split_and!; try done;
      intros m w; unfold finalWidth; simpl; f_equal; lia. }
  split_and!.
  - unfold tableColumns. by rewrite <- !app_assoc.
  - unfold leftPinnedColumns, rightPinnedColumns.
    by destruct (selectable props), (hasRowActions props).
  - apply Forall_forall. intros c Hc. apply Hfixed.
    rewrite !elem_of_app in Hc.
    destruct (selectable props), (hasRowActions props);
      rewrite ?list_elem_of_singleton, ?elem_of_nil in Hc; tauto.
  - intros Hfree Hnd. unfold tableColumns. rewrite fmap_app. apply NoDup_app.
    split_and!; [| | done].
    + destruct (selectable props), (hasRowActions props); compute_done.
    + intros id Hid Hin. apply list_elem_of_fmap in Hin as (c & -> & Hc).
      rewrite Forall_forall in Hfree. apply (Hfree c Hc).
      apply list_elem_of_fmap in Hid as (e & -> & He).
      rewrite !elem_of_app in He. unfold reservedIds.
      destruct (selectable props), (hasRowActions props);
        rewrite ?list_elem_of_singleton, ?elem_of_nil in He;
        destruct He as [He | [He | He]]; try done; subst e; compute_done.
Qed.

Lemma tableColumns_structure_witness :
  NoDup (col_id <$> tableColumns Sample.props).
Proof.
  destruct (tableColumns_structure Sample.props) as (extraColumns & _ & _ & _ & Hnd).
  apply Hnd; [repeat constructor; compute_done | compute_done].
Defined.

(** ** The measured width *)

Lemma fold_left_map_arg {A B C : Type} (g : A → C → A) (f : B → C)
    (l : list B) (a : A) :
  fold_left (λ acc x, g acc (f x)) l a = fold_left g (List.map f l) a.
Proof. revert a. induction l as [| x l IH]; intros a; simpl; [done | apply IH]. Qed.

Lemma fold_max_spec (l : list Number.t) (a : Number.t) :
  (fold_left Number.max l a = Number.NaN ↔ a = Number.NaN ∨ Number.NaN ∈ l) ∧
  (∀ w, fold_left Number.max l a = Number.Int w →
        (∃ a0, a = Number.Int a0 ∧ a0 ≤ w)
        ∧ (∀ x, Number.Int x ∈ l → x ≤ w)
        ∧ (a = Number.Int w ∨ Number.Int w ∈ l)).
Proof.
  revert a. induction l as [| x l IH]; intros a; simpl.
  - split.
    + split; [by left | by intros [? | ?%elem_of_nil]].
    + intros w ->. split_and!; [exists w; split; [done | lia] | | by left].
      by intros x Hx%elem_of_nil.
  - destruct (IH (Number.max a x)) as [Hnan Hint]. split.
    + assert (Hmax : Number.max a x = Number.NaN
                     ↔ a = Number.NaN ∨ Number.NaN = x).
      { destruct a, x; simpl; split; try (intros [? | ?]); try done;
          intros _; (by left) || (by right). }
      rewrite Hnan, elem_of_cons, Hmax. tauto.
    + intros w Hw. destruct (Hint w Hw) as ((m0 & Hm0 & Hle) & Hall & Hhit).
      destruct a as [a0 |], x as [x0 |]; simpl in Hm0; try discriminate.
      injection Hm0 as <-. split_and!.
      * exists a0. split; [done | lia].
      * intros y [[= ->] | Hy]%elem_of_cons; [lia | by apply Hall].
      * destruct Hhit as [[= Hmax] | Hin].
        -- destruct (Z.max_spec a0 x0) as [[_ Heq] | [_ Heq]];
             rewrite Heq in Hmax; subst w.
           ++ right. left.
           ++ by left.
        -- right. by right.
Qed.

Lemma fold_max_Permutation (l1 l2 : list Number.t) (a : Number.t) :
  l1 ≡ₚ l2 → fold_left Number.max l1 a = fold_left Number.max l2 a.
Proof.
  intros Hperm. revert a.
  induction Hperm as [| x l1 l2 _ IH | x y l | l1 l2 l3 _ IH1 _ IH2];
    intros a; simpl.
  - done.
  - apply IH.
  - f_equal. destruct a, x, y; simpl; try done. f_equal. lia.
  - by rewrite IH1.
Qed.

Lemma contentWidth_NaN (m : AutoFitMetrics) (toLocaleDateString : Js.value → string)
    (columnId : string) (cellValue : Js.value) :
  contentWidth m (cellText toLocaleDateString columnId cellValue) = Number.NaN
  ↔ columnId = "status"%string ∧ Js.truthy cellValue = true
    ∧ ∀ s, cellValue ≠ Js.Str s.
Proof.
  unfold cellText.
  destruct (String.eqb_spec columnId "status") as [-> | Hstatus].
  - destruct cellValue as [| | [] | n | s]; simpl;
      try (split; [done | by intros (_ & ? & _)]).
    + destruct (Z.eqb_spec n 0); simpl.
      * split; [done | by intros (_ & ? & _)].
      * split; [intros _ | done]. split_and!; [done | done | by intros s].
    + destruct (String.eqb_spec s ""); simpl.
      * split; [done | by intros (_ & ? & _)].
      * split; [done |]. intros (_ & _ & Hs). by destruct (Hs s).
  - repeat case_match; simpl; (split; [done | by intros [? _]]).
Qed.

(** X11: the width measured by the double click. A cell gives no number
    (NaN) exactly when the column id is ["status"] and the cell value is
    truthy without being a text, and the measure is NaN exactly when some
    cell gives none; the size stored for the column is then NaN as well.
    Otherwise the measure is the largest of the base width, the width of
    the header text and the widths of the cell texts: at least each of
    them and equal to one of them. The measure does not depend on the
    order of the rows, and measuring more rows never makes it smaller. *)
Theorem maxWidth_is_the_largest_measure (m : AutoFitMetrics)
    (toLocaleDateString : Js.value → string) (column : ColumnDef)
    (cellValues : list Js.value) :
  let headerText := default (col_id column) (header column) in
  let headerWidth := Z.of_nat (String.length headerText) * charWidth m
                     + headerPadding m in
  let widths :=
    List.map (λ cellValue,
                contentWidth m (cellText toLocaleDateString (col_id column) cellValue))
      cellValues in
  let measured := maxWidth m toLocaleDateString column cellValues in
  (measured = Number.NaN ↔ Number.NaN ∈ widths) ∧
  (Number.NaN ∈ widths
   ↔ col_id column = "status"%string
     ∧ ∃ cellValue, cellValue ∈ cellValues ∧ Js.truthy cellValue = true
                    ∧ ∀ s, cellValue ≠ Js.Str s) ∧
  (measured = Number.NaN →
   ∀ st, columnSizing (autoFitColumn m toLocaleDateString column cellValues st)
           !! col_id column = Some Number.NaN) ∧
  (∀ w, measured = Number.Int w →
        baseWidth m ≤ w ∧ headerWidth ≤ w
        ∧ (∀ x, Number.Int x ∈ widths → x ≤ w)
        ∧ (w = baseWidth m ∨ w = headerWidth ∨ Number.Int w ∈ widths)) ∧
  (∀ reordered, cellValues ≡ₚ reordered →
                maxWidth m toLocaleDateString column reordered = measured) ∧
  (∀ more w', maxWidth m toLocaleDateString column (cellValues ++ more)
              = Number.Int w' →
              ∃ w, measured = Number.Int w ∧ w ≤ w').
Proof.
  cbv zeta. unfold maxWidth.
  set (headerWidth := Z.of_nat (String.length (default (col_id column) (header column)))
                      * charWidth m + headerPadding m).
  set (f := λ cellValue : Js.value,
         contentWidth m (cellText toLocaleDateString (col_id column) cellValue)).
  assert (Hfold : ∀ l a,
    fold_left (λ width cellValue,
                 Number.max width
                   (contentWidth m
                      (cellText toLocaleDateString (col_id column) cellValue))) l a
    = fold_left Number.max (List.map f l) a).
  { intros l a. apply (fold_left_map_arg Number.max f). }
  rewrite !Hfold. cbn [Number.max].
  destruct (fold_max_spec (List.map f cellValues)
              (Number.Int (Z.max (baseWidth m) headerWidth))) as [Hnan Hint].
  split_and!.
  - rewrite Hnan. split; [by intros [? | ?] | by right].
  - rewrite list_elem_of_In, in_map_iff. split.
    + intros (v & Hv & Hin). apply contentWidth_NaN in Hv as (Hid & Htruthy & Hs).
      split; [done |]. exists v. by rewrite list_elem_of_In.
    + intros (Hid & v & Hin & Htruthy & Hs). exists v.
      split; [by apply contentWidth_NaN | by apply list_elem_of_In].
  - intros Hmeasured st. unfold autoFitColumn, storedWidth, maxWidth.
    cbn [columnSizing setColumnSizing]. rewrite lookup_insert_eq, Hfold.
    cbn [Number.max]. fold headerWidth. by rewrite Hmeasured.
  - intros w Hw. destruct (Hint w Hw) as ((a0 & [= <-] & Hle) & Hall & Hhit).
    split_and!; [lia | lia | done |].
    destruct Hhit as [[= Hmax] | Hin]; [| by right; right].
    destruct (Z.max_spec (baseWidth m) headerWidth) as [[_ Heq] | [_ Heq]];
      rewrite Heq in Hmax; [by right; left | by left].
  - intros reordered Hperm. rewrite Hfold. symmetry.
    apply fold_max_Permutation. by apply Permutation_map.
  - intros more w' Hmore. rewrite Hfold, map_app, fold_left_app in Hmore.
    destruct (proj2 (fold_max_spec (List.map f more)
                       (fold_left Number.max (List.map f cellValues)
                          (Number.Int (Z.max (baseWidth m) headerWidth)))) w' Hmore)
      as ((w & Hw & Hle) & _). by exists w.
Qed.

Lemma maxWidth_is_the_largest_measure_witness :
  maxWidth compactMetrics (λ _, ""%string) Sample.emailColumn
    [Js.Str "ann@example.org"; Js.Num 7]
  = maxWidth compactMetrics (λ _, ""%string) Sample.emailColumn
      [Js.Num 7; Js.Str "ann@example.org"].
Proof.
  refine (proj1 (proj2 (proj2 (proj2 (proj2
    (maxWidth_is_the_largest_measure compactMetrics (λ _, ""%string)
       Sample.emailColumn [Js.Num 7; Js.Str "ann@example.org"]))))) _ _).
  apply Permutation_swap.
Defined.

(** ** Storing the fitted width *)

(** X12: a double click on a resize handle writes the size of that column
    only: the sizes of the other columns and every other part of the state
    are as before. Fitting the same column twice is the same as fitting it
    once, a second fit of a column replaces the first, and fits of two
    different columns can be done in either order. *)
Theorem autoFitColumn_frame (m : AutoFitMetrics)
    (toLocaleDateString : Js.value → string) (column : ColumnDef)
    (cellValues : list Js.value) (st : TableState) :
  let st' := autoFitColumn m toLocaleDateString column cellValues st in
  (∀ id, id ≠ col_id column → columnSizing st' !! id = columnSizing st !! id) ∧
  setColumnSizing (columnSizing st) st' = st ∧
  autoFitColumn m toLocaleDateString column cellValues st' = st' ∧
  (∀ m' cellValues',
     autoFitColumn m' toLocaleDateString column cellValues' st'
     = autoFitColumn m' toLocaleDateString column cellValues' st) ∧
  (∀ m' column' cellValues', col_id column' ≠ col_id column →
     autoFitColumn m' toLocaleDateString column' cellValues' st'
     = autoFitColumn m toLocaleDateString column cellValues
         (autoFitColumn m' toLocaleDateString column' cellValues' st)).
Proof.
  cbv zeta. unfold autoFitColumn, setColumnSizing. simpl. split_and!.
  - intros id Hne. by rewrite lookup_insert_ne.
  - by destruct st.
  - by rewrite insert_insert_eq.
  - intros m' cellValues'. by rewrite insert_insert_eq.
  - intros m' column' cellValues' Hne. by rewrite insert_insert_ne.
Qed.

(** ** The selection indicator *)

Lemma filter_length_all {A : Type} (p : A → bool) (l : list A) :
  length (List.filter p l) = length l ↔ ∀ x, x ∈ l → p x = true.
Proof.
  split.
  - induction l as [| a l IH]; simpl; intros Hlen x Hx;
      [by apply elem_of_nil in Hx |].
    destruct (p a) eqn:Hpa; simpl in Hlen.
    + apply elem_of_cons in Hx as [-> | Hx]; [done |]. apply IH; [lia | done].
    + pose proof (sublist_length _ _ (bool_filter_sublist p l)). lia.
  - intros Hall. by rewrite filter_all.
Qed.

Lemma filter_length_none {A : Type} (p : A → bool) (l : list A) :
  length (List.filter p l) = 0%nat ↔ ∀ x, x ∈ l → p x = false.
Proof.
  split.
  - induction l as [| a l IH]; simpl; intros Hlen x Hx;
      [by apply elem_of_nil in Hx |].
    destruct (p a) eqn:Hpa; [discriminate |].
    apply elem_of_cons in Hx as [-> | Hx]; [done |]. by apply IH.
  - intros Hall. by rewrite filter_none.
Qed.

Lemma selection_keys (sel : gmap string bool) (key : string) :
  key ∈ (map_to_list sel).*1 ↔ ∃ v, sel !! key = Some v.
Proof.
  rewrite list_elem_of_fmap. split.
  - intros ([k v] & -> & Hin). exists v. by apply elem_of_map_to_list.
  - intros [v Hv]. exists (key, v). split; [done |]. by apply elem_of_map_to_list.
Qed.

Lemma selectedCount_full (st : TableState) :
  selectedCount st = size (rowSelection st)
  ↔ ∀ key v, rowSelection st !! key = Some v → v = true.
Proof.
  unfold selectedCount.
  rewrite <- (length_map_to_list (rowSelection st)),
    <- (length_fmap fst (map_to_list (rowSelection st))), filter_length_all.
  split.
  - intros Hall key v Hv. specialize (Hall key). rewrite Hv in Hall.
    apply Hall, selection_keys. by exists v.
  - intros Hall key [v Hv]%selection_keys. rewrite Hv. simpl. by apply (Hall key).
Qed.

(** X13: the number after the bullet in the header counts the entries of
    the selection state whose value is true. It never exceeds the number of
    entries, equals it exactly when every entry is true, and is zero
    exactly when every entry is false. The bullet is shown when selection
    is enabled and the state has an entry at all, so a state that holds
    only false entries shows "0 selected". *)
Theorem selectedCount_counts_true_entries (props : DataTableProps)
    (st : TableState) :
  (selectedCount st ≤ size (rowSelection st))%nat ∧
  (selectedCount st = size (rowSelection st)
   ↔ ∀ key v, rowSelection st !! key = Some v → v = true) ∧
  (selectedCount st = 0%nat
   ↔ ∀ key v, rowSelection st !! key = Some v → v = false) ∧
  (showSelectedCount props st = true
   ↔ selectable props = true ∧ rowSelection st ≠ ∅) ∧
  (showSelectedCount props st = true ∧ selectedCount st = 0%nat
   ↔ selectable props = true ∧ rowSelection st ≠ ∅
     ∧ ∀ key v, rowSelection st !! key = Some v → v = false).
Proof.
  assert (Hzero : selectedCount st = 0%nat
                  ↔ ∀ key v, rowSelection st !! key = Some v → v = false).
  { unfold selectedCount. rewrite filter_length_none. split.
    - intros Hall key v Hv. specialize (Hall key). rewrite Hv in Hall.
      apply Hall, selection_keys. by exists v.
    - intros Hall key [v Hv]%selection_keys. rewrite Hv. simpl. by apply (Hall key). }
  assert (Hshow : showSelectedCount props st = true
                  ↔ selectable props = true ∧ rowSelection st ≠ ∅).
  { unfold showSelectedCount.
    rewrite andb_true_iff, bool_decide_eq_true, <- map_size_non_empty_iff.
    split; intros [? ?]; (split; [done | lia]). }
  split_and!.
  - unfold selectedCount.
    rewrite <- (length_map_to_list (rowSelection st)),
      <- (length_fmap fst (map_to_list (rowSelection st))).
    apply sublist_length, bool_filter_sublist.
  - apply selectedCount_full.
  - exact Hzero.
  - exact Hshow.
  - rewrite Hzero, Hshow. tauto.
Qed.

Section SelectionInvariant.

Context (props : DataTableProps) (fns : RowModelFns).

Lemma selectRows_only_true (rows : list Row) (sel : gmap string bool) :
  map_Forall (λ _ v, v = true) sel →
  map_Forall (λ _ v, v = true) (selectRows props rows sel).
Proof.
  unfold selectRows. revert sel.
  induction rows as [| r rows IH]; intros sel Hsel; simpl; [done |].
  apply IH. destruct (selectable props); [| done].
  by apply map_Forall_insert_2.
Qed.

Lemma deselectRows_only_true (rows : list Row) (sel : gmap string bool) :
  map_Forall (λ _ v, v = true) sel →
  map_Forall (λ _ v, v = true) (deselectRows rows sel).
Proof.
  unfold deselectRows. revert sel.
  induction rows as [| r rows IH]; intros sel Hsel; simpl; [done |].
  apply IH. by apply map_Forall_delete.
Qed.

Lemma dispatch_only_true (st : TableState) (a : Action) :
  map_Forall (λ _ v, v = true) (rowSelection st) →
  map_Forall (λ _ v, v = true) (rowSelection (dispatch props fns st a)).
Proof.
  intros Hst. destruct a; simpl; try done.
  - unfold toggleSelected. repeat case_match; simpl; try done.
    + by apply map_Forall_insert_2.
    + by apply map_Forall_delete.
  - unfold toggleAllRowsSelected. case_match; simpl.
    + by apply selectRows_only_true.
    + by apply deselectRows_only_true.
  - unfold toggleAllPageRowsSelected. case_match; simpl.
    + by apply selectRows_only_true.
    + by apply deselectRows_only_true.
  - unfold toggleVisibility. by case_match.
Qed.

End SelectionInvariant.

(** X14: with the selection operations of the table instance as modelled
    here (selecting a row stores true under its id, deselecting removes the
    entry), no sequence of actions from the initial state stores a false
    entry. So in every state the user can reach the number after the
    bullet is the number of entries of the selection state, and the bullet
    is never shown with the number zero. *)
Theorem reachable_selection_holds_only_true (props : DataTableProps)
    (fns : RowModelFns) (actions : list Action) :
  let st := run props fns initialState actions in
  (∀ key v, rowSelection st !! key = Some v → v = true) ∧
  selectedCount st = size (rowSelection st) ∧
  (showSelectedCount props st = true ↔
   selectable props = true ∧ (0 < selectedCount st)%nat).
Proof.
  cbv zeta.
  assert (Hinv : map_Forall (λ _ v, v = true)
                   (rowSelection (run props fns initialState actions))).
  { unfold run.
    assert (Hinit : map_Forall (λ _ (v : bool), v = true) (rowSelection initialState))
      by apply map_Forall_empty.
    revert Hinit. generalize initialState.
    induction actions as [| a actions IH]; intros st Hst; simpl; [done |].
    apply IH. by apply dispatch_only_true. }
  assert (Hcount : selectedCount (run props fns initialState actions)
                   = size (rowSelection (run props fns initialState actions))).
  { apply selectedCount_full. intros key v Hv. by apply (Hinv key). }
  split_and!.
  - intros key v Hv. by apply (Hinv key).
  - exact Hcount.
  - unfold showSelectedCount. rewrite Hcount, andb_true_iff, bool_decide_eq_true.
    done.
Qed.

(** ** The context menu *)

Lemma choices_renderItems (row : TData) (items : list ContextMenu.Item) :
  ContextMenu.choices (ContextMenu.renderItems row items)
  = ContextMenu.visibleItems row items.
Proof.
  unfold ContextMenu.choices, ContextMenu.renderItems.
  induction (ContextMenu.visibleItems row items) as [| item l IH]; simpl; [done |].
  f_equal. exact IH.
Qed.

Lemma renderItems_elem (row : TData) (items : list ContextMenu.Item)
    (e : ContextMenu.Entry) :
  e ∈ ContextMenu.renderItems row items →
  ∃ item, e = ContextMenu.Choice item (ContextMenu.isDisabled row item)
          ∧ item ∈ items ∧ ContextMenu.isVisible row item = true.
Proof.
  unfold ContextMenu.renderItems, ContextMenu.visibleItems.
  intros (item & <- & [Hin Hvis]%filter_In)%list_elem_of_In%in_map_iff.
  exists item. split_and!; [done | by apply list_elem_of_In | done].
Qed.

Lemma renderGroups_cons (row : TData) (group : ContextMenu.Group)
    (rest : list ContextMenu.Group) :
  ContextMenu.renderGroups row (group :: rest)
  = (if bool_decide (ContextMenu.visibleItems row (ContextMenu.group_items group) = [])
     then []
     else match ContextMenu.group_label group with
          | Some text => if String.eqb text "" then [] else [ContextMenu.Label text]
          | None => []
          end
          ++ ContextMenu.renderItems row (ContextMenu.group_items group)
          ++ (if bool_decide (rest = []) then [] else [ContextMenu.Separator]))
    ++ ContextMenu.renderGroups row rest.
Proof.
  cbn [ContextMenu.renderGroups].
  destruct (ContextMenu.visibleItems row (ContextMenu.group_items group)) eqn:Hvis;
    [done |].
  rewrite bool_decide_eq_false_2 by done. by destruct rest.
Qed.

Lemma renderGroups_nothing_visible (row : TData) (groups : list ContextMenu.Group) :
  Forall (λ g, ContextMenu.visibleItems row (ContextMenu.group_items g) = []) groups →
  ContextMenu.renderGroups row groups = [].
Proof.
  induction 1 as [| g rest Hg _ IH]; [done |].
  rewrite renderGroups_cons, IH. by rewrite bool_decide_eq_true_2.
Qed.

(** X15: the context menu of a row is absent exactly when the prop is
    absent or an empty array. Otherwise its choices are the items that are
    not hidden for the row, in the order of the prop (group after group for
    a grouped menu); hidden items are left out and nothing is added. Each
    choice is disabled exactly when the item's [disabled] function says so
    for the row, and an item without that function is enabled. *)
Theorem context_menu_lists_the_visible_items (contextMenu : option ContextMenu.Menu)
    (row : TData) :
  (ContextMenu.renderContextMenuContent contextMenu row = None
   ↔ contextMenu = None ∨ contextMenu = Some (ContextMenu.Items [])
     ∨ contextMenu = Some (ContextMenu.Groups [])) ∧
  (∀ items entries,
     ContextMenu.renderContextMenuContent (Some (ContextMenu.Items items)) row
       = Some entries →
     ContextMenu.choices entries = List.filter (ContextMenu.isVisible row) items
     ∧ length entries = length (ContextMenu.choices entries)) ∧
  (∀ groups entries,
     ContextMenu.renderContextMenuContent (Some (ContextMenu.Groups groups)) row
       = Some entries →
     ContextMenu.choices entries
     = flat_map (λ g, List.filter (ContextMenu.isVisible row) (ContextMenu.group_items g))
         groups) ∧
  (∀ entries item isDisabled,
     ContextMenu.renderContextMenuContent contextMenu row = Some entries →
     ContextMenu.Choice item isDisabled ∈ entries →
     ContextMenu.isVisible row item = true
     ∧ isDisabled = ContextMenu.isDisabled row item
     ∧ (ContextMenu.item_disabled item = None → isDisabled = false)).
Proof.
  assert (Hgroups : ∀ groups,
    ContextMenu.choices (ContextMenu.renderGroups row groups)
    = flat_map (λ g, List.filter (ContextMenu.isVisible row) (ContextMenu.group_items g))
        groups).
  { induction groups as [| g rest IH]; [done |].
    rewrite renderGroups_cons. unfold ContextMenu.choices in *.
    rewrite omap_app, IH. cbn [flat_map]. f_equal.
    fold (ContextMenu.visibleItems row (ContextMenu.group_items g)).
    case_bool_decide as Hvis; [by rewrite Hvis |].
    rewrite !omap_app.
    fold (ContextMenu.choices
            (ContextMenu.renderItems row (ContextMenu.group_items g))).
    rewrite choices_renderItems.
    assert (Hlabel : omap (λ e, match e with
                                | ContextMenu.Choice item _ => Some item
                                | _ => None
                                end)
                       match ContextMenu.group_label g with
                       | Some text => if String.eqb text "" then []
                                      else [ContextMenu.Label text]
                       | None => []
                       end = []) by (by repeat case_match).
    rewrite Hlabel. case_bool_decide; simpl; by rewrite app_nil_r. }
  assert (Hchoice : ∀ groups item isDisabled,
    ContextMenu.Choice item isDisabled ∈ ContextMenu.renderGroups row groups →
    ContextMenu.isVisible row item = true
    ∧ isDisabled = ContextMenu.isDisabled row item).
  { induction groups as [| g rest IH]; intros item d Hin;
      [by apply elem_of_nil in Hin |].
    rewrite renderGroups_cons in Hin. apply elem_of_app in Hin as [Hin | Hin];
      [| by apply IH].
    case_bool_decide; [by apply elem_of_nil in Hin |].
    rewrite !elem_of_app in Hin. destruct Hin as [Hin | [Hin | Hin]].
    - repeat case_match; try (by apply elem_of_nil in Hin);
        by apply list_elem_of_singleton in Hin.
    - apply renderItems_elem in Hin as (item' & [= -> ->] & _ & Hvis). done.
    - case_bool_decide; [by apply elem_of_nil in Hin |].
      by apply list_elem_of_singleton in Hin. }
  split_and!.
  - destruct contextMenu as [[[| item items] | [| g groups]] |]; simpl; split;
      try done; try tauto; intros [? | [? | ?]]; done.
  - intros items entries Hrender. destruct items as [| item items]; [done |].
    change (Some (ContextMenu.renderItems row (item :: items)) = Some entries)
      in Hrender.
    assert (Heq : entries = ContextMenu.renderItems row (item :: items))
      by congruence.
    rewrite Heq, choices_renderItems. split; [done |].
    unfold ContextMenu.renderItems. by rewrite length_map.
  - intros groups entries Hrender. destruct groups as [| g groups]; [done |].
    change (Some (ContextMenu.renderGroups row (g :: groups)) = Some entries)
      in Hrender.
    assert (Heq : entries = ContextMenu.renderGroups row (g :: groups)) by congruence.
    rewrite Heq. apply Hgroups.
  - intros entries item d Hrender Hin.
    assert (Hok : ContextMenu.isVisible row item = true
                  ∧ d = ContextMenu.isDisabled row item).
    { destruct contextMenu as [[[| i items] | [| g groups]] |]; try done.
      - change (Some (ContextMenu.renderItems row (i :: items)) = Some entries)
          in Hrender.
        assert (Heq : entries = ContextMenu.renderItems row (i :: items))
          by congruence.
        rewrite Heq in Hin.
        apply renderItems_elem in Hin as (item' & [= -> ->] & _ & Hvis). done.
      - change (Some (ContextMenu.renderGroups row (g :: groups)) = Some entries)
          in Hrender.
        assert (Heq : entries = ContextMenu.renderGroups row (g :: groups))
          by congruence.
        rewrite Heq in Hin. by apply (Hchoice (g :: groups)). }
    destruct Hok as [Hvis ->]. split_and!; [done | done |].
    unfold ContextMenu.isDisabled. by intros ->.
Qed.

Lemma renderItems_no_separator (row : TData) (items : list ContextMenu.Item) :
  List.filter (λ e, match e with ContextMenu.Separator => true | _ => false end)
    (ContextMenu.renderItems row items) = [].
Proof.
  apply filter_none. by intros e (item & -> & _)%renderItems_elem.
Qed.

Lemma renderGroups_split (row : TData) (before : list ContextMenu.Group)
    (group : ContextMenu.Group) (after : list ContextMenu.Group) :
  ContextMenu.renderGroups row (before ++ group :: after)
  = ContextMenu.renderGroups row (before ++ [group])
    ++ (if bool_decide (ContextMenu.visibleItems row (ContextMenu.group_items group) ≠ [])
           && bool_decide (after ≠ [])
        then [ContextMenu.Separator] else [])
    ++ ContextMenu.renderGroups row after.
Proof.
  induction before as [| b before IH].
  - cbn [app]. rewrite !renderGroups_cons. cbn [ContextMenu.renderGroups].
    rewrite app_nil_r.
    destruct (decide (ContextMenu.visibleItems row (ContextMenu.group_items group) = []))
      as [Hnone | Hsome].
    + rewrite !(bool_decide_eq_true_2 _ Hnone).
      by rewrite (bool_decide_eq_false_2 (_ ≠ [])) by (by intros H; apply H).
    + rewrite !(bool_decide_eq_false_2 _ Hsome), (bool_decide_eq_true_2 _ Hsome).
      rewrite (bool_decide_eq_true_2 ([] = [])) by done. rewrite app_nil_r.
      destruct after as [| g after].
      * rewrite (bool_decide_eq_true_2 ([] = [])) by done.
        rewrite (bool_decide_eq_false_2 ([] ≠ [])) by (by intros H; apply H).
        by rewrite !app_nil_r.
      * rewrite (bool_decide_eq_false_2 (g :: after = [])) by done.
        rewrite (bool_decide_eq_true_2 (g :: after ≠ [])) by done.
        cbn [andb]. by rewrite <- !app_assoc.
  - cbn [app]. rewrite (renderGroups_cons row b (before ++ group :: after)).
    rewrite (renderGroups_cons row b (before ++ [group])). rewrite IH.
    rewrite (bool_decide_eq_false_2 (before ++ group :: after = []))
      by (by destruct before).
    rewrite (bool_decide_eq_false_2 (before ++ [group] = [])) by (by destruct before).
    by rewrite <- !app_assoc.
Qed.

Lemma renderGroups_separators (row : TData) (before : list ContextMenu.Group)
    (group : ContextMenu.Group) :
  length (List.filter (λ e, match e with ContextMenu.Separator => true | _ => false end)
            (ContextMenu.renderGroups row (before ++ [group])))
  = length (List.filter
              (λ g, bool_decide (ContextMenu.visibleItems row (ContextMenu.group_items g) ≠ []))
              before).
Proof.
  assert (Hlabel : ∀ g,
    List.filter (λ e, match e with ContextMenu.Separator => true | _ => false end)
      match ContextMenu.group_label g with
      | Some text => if String.eqb text "" then [] else [ContextMenu.Label text]
      | None => []
      end = []) by (intros g; by repeat case_match).
  induction before as [| b before IH].
  - cbn [app List.filter length]. rewrite renderGroups_cons.
    cbn [ContextMenu.renderGroups]. rewrite app_nil_r.
    case_bool_decide; [done |].
    rewrite !List.filter_app, Hlabel, renderItems_no_separator.
    by rewrite (bool_decide_eq_true_2 ([] = [])) by done.
  - cbn [app]. rewrite renderGroups_cons, List.filter_app, length_app, IH.
    rewrite (bool_decide_eq_false_2 (before ++ [group] = [])) by (by destruct before).
    cbn [List.filter].
    destruct (decide (ContextMenu.visibleItems row (ContextMenu.group_items b) = []))
      as [Hnone | Hsome].
    + rewrite (bool_decide_eq_true_2 _ Hnone).
      by rewrite (bool_decide_eq_false_2 (_ ≠ [])) by (by intros H; apply H).
    + rewrite (bool_decide_eq_false_2 _ Hsome), (bool_decide_eq_true_2 _ Hsome).
      by rewrite !List.filter_app, Hlabel, renderItems_no_separator.
Qed.

(** X16: how a grouped menu places its separators. A group alone renders
    its label, when that is a non-empty text, and its visible items, or
    nothing at all when it has no visible item. In an array of groups a
    separator follows every group that has a visible item and is not the
    last of the array, and nothing else adds one: cutting the array after
    any group splits the rendering there, with a separator in between
    exactly when that group has a visible item and a group follows. So the
    menu never starts with a separator, it holds one separator for each
    group with a visible item other than the last of the array, and it
    ends with a separator when all the groups after such a group are
    without visible item. When no group has a visible item the menu is
    rendered empty rather than absent. *)
Theorem grouped_menu_separators (row : TData) (before : list ContextMenu.Group)
    (group : ContextMenu.Group) (after : list ContextMenu.Group) :
  let hasVisible g :=
    bool_decide (ContextMenu.visibleItems row (ContextMenu.group_items g) ≠ []) in
  let separators entries :=
    length (List.filter
              (λ e, match e with ContextMenu.Separator => true | _ => false end)
              entries) in
  ContextMenu.renderGroups row [group]
  = (if hasVisible group
     then match ContextMenu.group_label group with
          | Some text => if String.eqb text "" then [] else [ContextMenu.Label text]
          | None => []
          end ++ ContextMenu.renderItems row (ContextMenu.group_items group)
     else []) ∧
  ContextMenu.renderGroups row (before ++ group :: after)
  = ContextMenu.renderGroups row (before ++ [group])
    ++ (if hasVisible group && bool_decide (after ≠ [])
        then [ContextMenu.Separator] else [])
    ++ ContextMenu.renderGroups row after ∧
  separators (ContextMenu.renderGroups row (before ++ [group]))
  = length (List.filter hasVisible before) ∧
  separators (ContextMenu.renderGroups row (before ++ group :: after))
  = length (List.filter hasVisible (removelast (before ++ group :: after))) ∧
  (hasVisible group = true → after ≠ [] →
   Forall (λ g, hasVisible g = false) after →
   last (ContextMenu.renderGroups row (before ++ group :: after))
   = Some ContextMenu.Separator) ∧
  (Forall (λ g, hasVisible g = false) (before ++ group :: after) →
   ContextMenu.renderContextMenuContent
     (Some (ContextMenu.Groups (before ++ group :: after))) row = Some []) ∧
  head (ContextMenu.renderGroups row (before ++ group :: after))
  ≠ Some ContextMenu.Separator.
Proof.
  cbv zeta.
  assert (Hhidden : ∀ groups,
    Forall (λ g, bool_decide
                   (ContextMenu.visibleItems row (ContextMenu.group_items g) ≠ [])
                 = false) groups →
    Forall (λ g, ContextMenu.visibleItems row (ContextMenu.group_items g) = []) groups).
  { intros groups Hgroups. apply (Forall_impl _ _ _ Hgroups). intros g Hg.
    apply bool_decide_eq_false in Hg.
    destruct (ContextMenu.visibleItems row (ContextMenu.group_items g));
      [done | by destruct Hg]. }
  split_and!.
  - rewrite renderGroups_cons. cbn [ContextMenu.renderGroups]. rewrite app_nil_r.
    rewrite (bool_decide_eq_true_2 ([] = [])) by done. rewrite app_nil_r.
    destruct (decide (ContextMenu.visibleItems row (ContextMenu.group_items group) = []))
      as [Hnone | Hsome].
    + rewrite (bool_decide_eq_true_2 _ Hnone).
      by rewrite (bool_decide_eq_false_2 (_ ≠ [])) by (by intros H; apply H).
    + by rewrite (bool_decide_eq_false_2 _ Hsome), (bool_decide_eq_true_2 _ Hsome).
  - apply renderGroups_split.
  - apply renderGroups_separators.
  - destruct (exists_last (l := before ++ group :: after)) as (front & final & Heq);
      [by destruct before |].
    rewrite Heq, removelast_last. apply renderGroups_separators.
  - intros Hvis Hmore Hafter. rewrite renderGroups_split.
    rewrite (renderGroups_nothing_visible row after (Hhidden after Hafter)), app_nil_r.
    rewrite Hvis. rewrite (bool_decide_eq_true_2 (after ≠ [])) by done.
    cbn [andb]. apply last_snoc.
  - intros Hall.
    assert (Hrender : ContextMenu.renderGroups row (before ++ group :: after) = [])
      by (by apply renderGroups_nothing_visible, Hhidden).
    destruct before; cbn [app ContextMenu.renderContextMenuContent];
      cbn [app] in Hrender; by rewrite Hrender.
  - generalize (before ++ group :: after). intros groups.
    induction groups as [| g groups IH]; [done |].
    rewrite renderGroups_cons. case_bool_decide as Hvis; [done |].
    unfold ContextMenu.renderItems.
    destruct (ContextMenu.visibleItems row (ContextMenu.group_items g)); [done |].
    by repeat case_match.
Qed.

Lemma grouped_menu_separators_witness :
  last (ContextMenu.renderGroups ∅
    [ {| ContextMenu.group_label := Some "Edit"%string;
         ContextMenu.group_items :=
           [ {| ContextMenu.item_label := "Rename";
                ContextMenu.item_destructive := false;
                ContextMenu.item_disabled := None;
                ContextMenu.item_hidden := None;
                ContextMenu.item_shortcut := None |} ] |};
      {| ContextMenu.group_label := Some "Danger"%string;
         ContextMenu.group_items :=
           [ {| ContextMenu.item_label := "Delete";
                ContextMenu.item_destructive := true;
                ContextMenu.item_disabled := None;
                ContextMenu.item_hidden := Some (λ _, true);
                ContextMenu.item_shortcut := None |} ] |} ])
  = Some ContextMenu.Separator.
Proof.
  refine (proj1 (proj2 (proj2 (proj2 (proj2
    (grouped_menu_separators ∅ [] _ [_]))))) _ _ _).
  - reflexivity.
  - discriminate.
  - repeat constructor.
Defined.

(** ** The configured filters *)

Lemma filterConfigs_ids_sublist (columns : list ColumnDef) :
  config_id <$> filterConfigs columns `sublist_of` col_id <$> columns.
Proof.
  unfold filterConfigs. induction columns as [| col rest IH]; simpl; [done |].
  destruct (negb (String.eqb (col_id col) "")
            && negb (bool_decide (enableColumnFilter col = Some false))); simpl.
  - by apply sublist_skip.
  - by apply sublist_cons.
Qed.

Lemma filterConfigs_elem_config (columns : list ColumnDef) (config : FilterConfig) :
  config ∈ filterConfigs columns ↔
  ∃ col, col ∈ columns
         ∧ config = {| config_id := col_id col;
                       config_label := default (col_id col) (header col);
                       config_type := TextFilter |}
         ∧ col_id col ≠ ""%string ∧ enableColumnFilter col ≠ Some false.
Proof.
  unfold filterConfigs. rewrite list_elem_of_In, in_map_iff. split.
  - intros (col & <- & [Hin Hkeep]%filter_In).
    apply andb_true_iff in Hkeep as [Hid Hflag]. exists col.
    split_and!; [by apply list_elem_of_In | done | |].
    + intros Heq. rewrite Heq in Hid. discriminate.
    + intros Heq. by rewrite bool_decide_eq_true_2 in Hflag.
  - intros (col & Hin & -> & Hid & Hflag). exists col. split; [done |].
    apply filter_In. split; [by apply list_elem_of_In |].
    apply andb_true_iff. split.
    + by apply negb_true_iff, String.eqb_neq.
    + by rewrite bool_decide_eq_false_2.
Qed.

(** X17: the table's own panel offers one text filter for each of the
    caller's columns that has a non-empty id and has not set
    [enableColumnFilter] to false, in column order, labelled by the header
    when that is a string and by the id otherwise; no other column gets a
    filter and every filter is a text filter. The panel is offered exactly
    when filtering is switched on and there is such a column. Distinct
    column ids give distinct filter ids. *)
Theorem filterConfigs_follow_the_columns (filterable : bool)
    (columns : list ColumnDef) :
  config_id <$> filterConfigs columns `sublist_of` col_id <$> columns ∧
  (∀ config, config ∈ filterConfigs columns ↔
     ∃ col, col ∈ columns
            ∧ config = {| config_id := col_id col;
                          config_label := default (col_id col) (header col);
                          config_type := TextFilter |}
            ∧ col_id col ≠ ""%string ∧ enableColumnFilter col ≠ Some false) ∧
  (showFilterPanel filterable columns = true ↔
     filterable = true
     ∧ ∃ col, col ∈ columns ∧ col_id col ≠ ""%string
              ∧ enableColumnFilter col ≠ Some false) ∧
  (length (filterConfigs columns) ≤ length columns)%nat ∧
  (NoDup (col_id <$> columns) → NoDup (config_id <$> filterConfigs columns)).
Proof.
  split_and!.
  - apply filterConfigs_ids_sublist.
  - apply filterConfigs_elem_config.
  - unfold showFilterPanel. rewrite andb_true_iff, bool_decide_eq_true.
    split; intros [Hon Hsome]; (split; [done |]).
    + destruct (filterConfigs columns) as [| config l] eqn:Hconfigs;
        [simpl in Hsome; lia |].
      assert (Hin : config ∈ filterConfigs columns) by (rewrite Hconfigs; by left).
      apply filterConfigs_elem_config in Hin as (col & Hcol & _ & Hid & Hflag).
      by exists col.
    + destruct Hsome as (col & Hcol & Hid & Hflag).
      assert (Hin : {| config_id := col_id col;
                       config_label := default (col_id col) (header col);
                       config_type := TextFilter |} ∈ filterConfigs columns).
      { apply filterConfigs_elem_config. by exists col. }
      destruct (filterConfigs columns); [by apply elem_of_nil in Hin | simpl; lia].
  - pose proof (sublist_length _ _ (filterConfigs_ids_sublist columns)) as Hlen.
    by rewrite !length_fmap in Hlen.
  - intros Hnd. apply (sublist_NoDup _ (col_id <$> columns));
      [done | apply filterConfigs_ids_sublist].
Qed.

Lemma filterConfigs_follow_the_columns_witness :
  NoDup (config_id <$> filterConfigs (rowNumberColumn :: columns Sample.props)).
Proof.
  refine (proj2 (proj2 (proj2 (proj2
    (filterConfigs_follow_the_columns true
       (rowNumberColumn :: columns Sample.props))))) _).
  compute_done.
Defined.

(** ** Panel values that are not texts *)

Lemma pretty_N_char_not_white_space (x : N) :
  Js.is_white_space (pretty_N_char x) = false.
Proof. unfold pretty_N_char. by repeat case_match. Qed.

Lemma pretty_N_go_not_blank (x : N) (s : string) :
  (0 < x)%N ∨ Js.blank s = false → Js.blank (pretty_N_go x s) = false.
Proof.
  revert s. induction (N.lt_wf_0 x) as [x _ IH]; intros s Hs.
  assert (x = 0 ∨ 0 < x)%N as [-> | Hpos] by lia.
  - rewrite pretty_N_go_0. destruct Hs as [? | ?]; [lia | done].
  - rewrite pretty_N_go_step by done. apply IH.
    + by apply N.div_lt.
    + right. simpl. by rewrite pretty_N_char_not_white_space.
Qed.

Lemma pretty_Z_not_blank (n : Z) : Js.blank (pretty n) = false.
Proof.
  destruct n as [| p | p]; [done | |].
  - unfold pretty, pretty_Z, pretty, pretty_positive, pretty, pretty_N.
    rewrite decide_False by done. apply pretty_N_go_not_blank. left. lia.
  - done.
Qed.

(** X18: which values of a panel entry the apply handler keeps, by kind
    of value: [undefined] and [null] are dropped; a boolean is kept when it
    is true; an integer is kept unless it is zero; a text is kept when it
    has a character other than white space. So an entry holding the number
    zero adds no column filter, while every other integer does. *)
Theorem filterEntryActive_by_kind (st : TableState) (filterId : string) :
  filterEntryActive Js.Undefined = false ∧
  filterEntryActive Js.Null = false ∧
  (∀ b, filterEntryActive (Js.Bool b) = b) ∧
  (∀ n, filterEntryActive (Js.Num n) = negb (n =? 0)) ∧
  (∀ s, filterEntryActive (Js.Str s) = negb (Js.blank s)) ∧
  (∀ n, (filterId, Js.Num n) ∈ filterValues st →
        ({| filter_id := filterId; filter_value := Js.Num n |}
           ∈ columnFilters (handleApplyFilters st) ↔ n ≠ 0)).
Proof.
  assert (Hnum : ∀ n, filterEntryActive (Js.Num n) = negb (n =? 0)).
  { intros n. unfold filterEntryActive. cbn [Js.truthy Js.toString].
    destruct (String.eqb_spec (Js.trim (pretty n)) "") as [He | Hne].
    - apply trim_empty in He. by rewrite pretty_Z_not_blank in He.
    - by rewrite andb_true_r. }
  split_and!.
  - done.
  - done.
  - by intros [].
  - exact Hnum.
  - apply filterEntryActive_text.
  - intros n Hin. unfold handleApplyFilters. cbn [columnFilters setColumnFilters].
    rewrite appliedFilters_elem. cbn [filter_id filter_value]. rewrite Hnum.
    destruct (Z.eqb_spec n 0) as [-> | Hne]; simpl; split; try done.
    by intros [_ ?].
Qed.

(** ** Identities of rows without an id *)

Lemma getRowId_without_id (row : TData) (index : nat) :
  Js.prop row "id" ∈ [Js.Undefined; Js.Null; Js.Str ""] →
  getRowId row index = pretty index.
Proof.
  unfold getRowId. intros Hid. repeat apply elem_of_cons in Hid as [-> | Hid];
    [done | done | done | by apply elem_of_nil in Hid].
Qed.

Lemma imap_getRowId_without_id (rows : list TData) (k : nat) :
  Forall (λ row, Js.prop row "id" ∈ [Js.Undefined; Js.Null; Js.Str ""]) rows →
  imap (λ index row, getRowId row (k + index)) rows
  = pretty <$> seq k (length rows).
Proof.
  intros Hrows. revert k.
  induction Hrows as [| row rows Hrow _ IH]; intros k; [done |].
  cbn [imap length seq]. rewrite fmap_cons. f_equal.
  - rewrite Nat.add_0_r. by apply getRowId_without_id.
  - rewrite <- IH. apply imap_ext. intros i x _. simpl. f_equal. lia.
Qed.

(** X19: in a dataset where no record has a usable id (the field is
    missing, null or the empty text) the identity of each row is its
    position written in decimal, so the identities are pairwise
    distinct. *)
Theorem rows_without_id_get_distinct_identities (rows : list TData) :
  Forall (λ row, Js.prop row "id" ∈ [Js.Undefined; Js.Null; Js.Str ""]) rows →
  imap (λ index row, getRowId row index) rows
  = (λ index : nat, pretty index) <$> seq 0 (length rows)
  ∧ NoDup (imap (λ index row, getRowId row index) rows).
Proof.
  intros Hrows.
  pose proof (imap_getRowId_without_id rows 0 Hrows) as Heq. simpl in Heq.
  split; [exact Heq |]. rewrite Heq.
  apply (NoDup_fmap_2 _), NoDup_seq.
Qed.

Lemma rows_without_id_get_distinct_identities_witness :
  NoDup (imap (λ index row, getRowId row index)
           [Sample.anonymous 5; Sample.anonymous 5; Sample.anonymous 7]).
Proof.
  refine (proj2 (rows_without_id_get_distinct_identities
                   [Sample.anonymous 5; Sample.anonymous 5; Sample.anonymous 7] _)).
  repeat constructor; compute_done.
Defined.

(** ** The range of a row number *)

Lemma findIndex_range {A : Type} (p : A → bool) (l : list A) :
  -1 ≤ Js.findIndex p l < Z.of_nat (length l) ∧
  (Js.findIndex p l = -1 ↔ ∀ x, x ∈ l → p x = false).
Proof.
  induction l as [| a l [Hrange Hnone]]; simpl.
  - split; [lia |]. split; [by intros _ x Hx%elem_of_nil | done].
  - destruct (p a) eqn:Ha.
    + split; [lia |]. split; [lia |].
      intros Hall. rewrite (Hall a) in Ha by (by left). discriminate.
    + destruct (Z.ltb_spec (Js.findIndex p l) 0) as [Hneg | Hpos].
      * split; [lia |]. split; [| done].
        intros _ x [-> | Hx]%elem_of_cons; [done |]. apply Hnone; [lia | done].
      * split; [lia |]. split; [lia |].
        intros Hall. assert (Js.findIndex p l = -1); [| lia].
        apply Hnone. intros x Hx. apply Hall. by right.
Qed.

(** X20: the number shown in the row-number cell lies between 0 and the
    number of filtered rows. It is 0 exactly when no filtered row carries
    the identity of the row, and it depends on the row through its identity
    only: two rows with the same identity show the same number. *)
Theorem rowNumberCell_range (props : DataTableProps) (fns : RowModelFns)
    (st : TableState) (row : Row) :
  0 ≤ rowNumberCell props fns st row
    ≤ Z.of_nat (length (getFilteredRowModel props fns st)) ∧
  (rowNumberCell props fns st row = 0
   ↔ row_id row ∉ row_id <$> getFilteredRowModel props fns st) ∧
  (row ∈ getFilteredRowModel props fns st → 1 ≤ rowNumberCell props fns st row) ∧
  (∀ other, row_id other = row_id row →
            rowNumberCell props fns st other = rowNumberCell props fns st row).
Proof.
  unfold rowNumberCell. cbv zeta.
  destruct (findIndex_range (λ r, String.eqb (row_id r) (row_id row))
              (getFilteredRowModel props fns st)) as [Hrange Hnone].
  assert (Hzero : Js.findIndex (λ r, String.eqb (row_id r) (row_id row))
                    (getFilteredRowModel props fns st) + 1 = 0
                  ↔ row_id row ∉ row_id <$> getFilteredRowModel props fns st).
  { split.
    - intros Hz Hin. apply list_elem_of_fmap in Hin as (r & Hid & Hr).
      assert (Hm : Js.findIndex (λ r, String.eqb (row_id r) (row_id row))
                     (getFilteredRowModel props fns st) = -1) by lia.
      pose proof (proj1 Hnone Hm r Hr) as Hneq. simpl in Hneq.
      apply String.eqb_neq in Hneq. congruence.
    - intros Hnot.
      assert (Hm : Js.findIndex (λ r, String.eqb (row_id r) (row_id row))
                     (getFilteredRowModel props fns st) = -1); [| lia].
      apply Hnone. intros r Hr. apply String.eqb_neq. intros Heq.
      apply Hnot. apply list_elem_of_fmap. by exists r. }
  split_and!.
  - lia.
  - lia.
  - exact Hzero.
  - intros Hin.
    assert (Hne : Js.findIndex (λ r, String.eqb (row_id r) (row_id row))
                    (getFilteredRowModel props fns st) + 1 ≠ 0); [| lia].
    intros Hz. apply Hzero in Hz. apply Hz, list_elem_of_fmap. by exists row.
  - by intros other ->.
Qed.

Lemma rowNumberCell_range_witness :
  1 ≤ rowNumberCell Sample.props Sample.fns initialState
        {| row_id := "b"; original := Sample.record "b" 1; row_index := 1 |}.
Proof.
  refine (proj1 (proj2 (proj2 (rowNumberCell_range Sample.props Sample.fns
    initialState
    {| row_id := "b"; original := Sample.record "b" 1; row_index := 1 |}))) _).
  assert (Hrows : getFilteredRowModel Sample.props Sample.fns initialState
    = [ {| row_id := "a"; original := Sample.record "a" 2; row_index := 0 |};
        {| row_id := "b"; original := Sample.record "b" 1; row_index := 1 |} ])
    by reflexivity.
  rewrite Hrows. apply elem_of_cons. right. apply elem_of_cons. by left.
Defined.
